(** * bert_downstream_classification.py: data preparation, collation and driver

    A shallow embedding of the script's dataframe glue (filtering, label
    reindexing, stratified split), of the dataset adapter and the batch
    collation function, and of the control flow of [main].

    Third-party calls are modelled by what they compute on the data the
    script hands them:
    - a pandas frame is the list of its rows in order, each row paired with
      its row label (the frame's [.index]); the two columns are ['index']
      (the class label, an integer) and ['question'] (the text);
    - a one-dimensional [torch] tensor of integers is a [list Z], a batch
      (two-dimensional tensor) a list of rows;
    - the random generator is an explicit stream of draws that sampling
      consumes;
    - an exception is a value of [Exn]; a call that may raise returns
      [result]. *)

From stdpp Require Import gmap strings list sorting.
From Stdlib Require Import QArith Ascii.

Local Open Scope Z_scope.

(** ** Exceptions and results *)

Inductive Exn : Type :=
  | NameError (name : string)
  | AttributeError (attr : string)
  | IndexError
  | KeyError
  | ValueError
  | TypeError
  | AssertionError
  | OSError.

#[global] Instance Exn_eq_dec : EqDecision Exn.
Proof. solve_decision. Defined.

Inductive result (A : Type) : Type :=
  | Ok (a : A)
  | Raise (e : Exn).
Arguments Ok {A} a.
Arguments Raise {A} e.

Definition rbind {A B} (r : result A) (k : A → result B) : result B :=
  match r with
  | Ok a => k a
  | Raise e => Raise e
  end.

Fixpoint rmapM {A B} (f : A → result B) (l : list A) : result (list B) :=
  match l with
  | [] => Ok []
  | x :: l' =>
      rbind (f x) (λ y, rbind (rmapM f l') (λ ys, Ok (y :: ys)))
  end.

(** ** Frames *)

Record Row : Type := mkRow { index : Z; question : string }.

#[global] Instance Row_eq_dec : EqDecision Row.
Proof. solve_decision. Defined.

(** A frame whose row labels have type [I]. *)
Abbreviation Frame I := (list (I * Row)).

(** The frames the script reads and filters carry integer row labels. *)
Abbreviation DataFrame := (Frame nat).

(** [df["index"]] *)
Definition col_index {I} (df : Frame I) : list Z := (λ p, index p.2) <$> df.

(** [Series.unique()]: the distinct values in order of first appearance. *)
Fixpoint unique (l : list Z) : list Z :=
  match l with
  | [] => []
  | x :: l' => x :: filter (λ y, y ≠ x) (unique l')
  end.

(** Number of rows of [df] whose label is [v]. *)
Definition count_label {I} (v : Z) (df : Frame I) : nat :=
  length (filter (λ p, index p.2 = v) df).

Definition count_ge (a b : Z * nat) : Prop := (b.2 ≤ a.2)%nat.

#[global] Instance count_ge_dec a b : Decision (count_ge a b).
Proof. unfold count_ge. apply _. Defined.

(** [Series.value_counts()]: one entry per distinct value with the number of
    its occurrences, most frequent first. *)
Definition value_counts {I} (df : Frame I) : list (Z * nat) :=
  merge_sort count_ge ((λ v, (v, count_label v df)) <$> unique (col_index df)).

(** [DataFrame.drop_duplicates()]: of the rows with equal column values the
    first stays; row labels are not compared. *)
Fixpoint drop_duplicates {I} (df : Frame I) : Frame I :=
  match df with
  | [] => []
  | p :: df' => p :: filter (λ q, q.2 ≠ p.2) (drop_duplicates df')
  end.

(** Number of rows of [df] whose column values are those of [r]. *)
Definition count_row {I} (r : Row) (df : Frame I) : nat :=
  length (filter (λ q, q.2 = r) df).

(** [DataFrame.drop_duplicates(keep=False)]: every row whose column values
    occur more than once is dropped. *)
Definition drop_duplicates_keep_false {I} (df : Frame I) : Frame I :=
  filter (λ p, count_row p.2 df = 1%nat) df.

(** ** Filtering *)

(** [len(x)] of a text: the number of its characters, one [ascii] standing
    for one character. *)
Definition len (s : string) : Z := Z.of_nat (String.length s).

Definition filter_toofew_toolong
    (df : DataFrame) (min_each_group max_length : Z) : DataFrame :=
  let df := filter (λ p, ¬ (len (question p.2) > max_length)) df in
  let counts := value_counts df in
  let idxs := counts.*1 in
  let list_idx :=
    (zip idxs (counts.*2)) ≫= (λ ic, if decide (Z.of_nat ic.2 >= min_each_group)
                                     then [ic.1] else []) in
  filter (λ p, index p.2 ∈ list_idx) df.

(** ** Label reindexing *)

(** [enumerate(l)] *)
Definition enumerate {A} (l : list A) : list (nat * A) := imap pair l.

(** A dict comprehension [{k: v for ...}]: later bindings of a key replace
    earlier ones. *)
Definition dict_of {K V} `{Countable K} (kvs : list (K * V)) : gmap K V :=
  foldl (λ m kv, <[kv.1 := kv.2]> m) ∅ kvs.

Definition create_label2index {I} (df : Frame I) : gmap Z nat :=
  dict_of ((λ iv, (iv.2, iv.1)) <$> enumerate (unique (col_index df))).

Definition create_index2label {I} (df : Frame I) : gmap nat Z :=
  dict_of (enumerate (unique (col_index df))).

(** [label2index[label]] raises [KeyError] on a label that is not a key. *)
Definition getindex4label (label2index : gmap Z nat) (label : Z) : result Z :=
  match label2index !! label with
  | Some i => Ok (Z.of_nat i)
  | None => Raise KeyError
  end.

Definition reindex {I} (df : Frame I) (label2index : gmap Z nat)
    : result (Frame I) :=
  rmapM (λ p, rbind (getindex4label label2index (index p.2))
                (λ i, Ok (p.1, mkRow i (question p.2)))) df.

(** The integer [reindex] writes for a label. *)
Definition label_code (label2index : gmap Z nat) (v : Z) : Z :=
  Z.of_nat (default 0%nat (label2index !! v)).

Definition get_num_labels {I} (df : Frame I) : nat := length (value_counts df).

(** A frame holds the ['index'] and ['question'] columns only, so the column
    selection [df.loc[:, ["index", "question"]]] leaves it as it is. *)
Definition preprocessing (df : DataFrame) (mineachgroup maxlength : Z)
    : DataFrame :=
  let df := drop_duplicates df in
  filter_toofew_toolong df mineachgroup maxlength.

(** ** Random sampling *)

(** The draws a generator still has to give; a stream that has run out gives
    [0]. *)
Definition rng : Type := list nat.

(** [k] draws without replacement from [pool], each draw picking one of the
    elements that are left. *)
Fixpoint draw {A} (pool : list A) (k : nat) (g : rng) : list A * rng :=
  match k with
  | O => ([], g)
  | S k' =>
      let i := (hd 0%nat g `mod` length pool)%nat in
      match pool !! i with
      | Some x =>
          let '(xs, g') := draw (delete i pool) k' (tl g) in (x :: xs, g')
      | None => ([], g)
      end
  end.

(** [numpy]'s [choice(pool, size=k, replace=False)]: a larger sample than
    the population is refused. *)
Definition choice {A} (pool : list A) (k : nat) (g : rng)
    : result (list A * rng) :=
  if decide (length pool < k)%nat then Raise ValueError else Ok (draw pool k g).

(** Python's [round] of a number: the nearest integer, a tie going to the
    even neighbour. The number is taken exactly; the script's floats are
    rationals, and the product [frac * len] is not rounded to a float here. *)
Definition round (q : Q) : Z :=
  let n := Qnum q in
  let d := Z.pos (Qden q) in
  let f := n `div` d in
  let r := n `mod` d in
  if decide (2 * r < d) then f
  else if decide (d < 2 * r) then f + 1
  else if Z.even f then f else f + 1.

(** Number of rows [sample(frac=frac)] takes from [n] rows. *)
Definition sample_size (frac : Q) (n : nat) : nat :=
  Z.to_nat (round (frac * inject_Z (Z.of_nat n))).

(** ** The script's world: what it has printed and done so far, and the
    state of [numpy]'s global generator *)

Inductive Event : Type :=
  | EPrint (text : string)
  | EPrintCount (text : string) (n : nat)
  | EReadCsv (path : string)
  | EFromPretrained (name : string)
  | EClearOutput
  | ECall (name : string)
  | EMakeDirs (path : string)
  | EOpenWrite (path : string).

#[global] Instance Event_eq_dec : EqDecision Event.
Proof. solve_decision. Defined.

Record World : Type := mkWorld { events : list Event; numpy_random : rng }.

Definition M (A : Type) : Type := World → result A * World.

Definition ret {A} (a : A) : M A := λ w, (Ok a, w).

Definition bind {A B} (m : M A) (k : A → M B) : M B :=
  λ w, match m w with
       | (Ok a, w') => k a w'
       | (Raise e, w') => (Raise e, w')
       end.

Definition raise {A} (e : Exn) : M A := λ w, (Raise e, w).

Definition lift {A} (r : result A) : M A := λ w, (r, w).

Definition emit (ev : Event) : M unit :=
  λ w, (Ok tt, mkWorld (events w ++ [ev]) (numpy_random w)).

Declare Scope script_scope.
Delimit Scope script_scope with script.
Notation "x <- m ;; k" := (bind m (λ x, k))
  (at level 100, m at next level, right associativity) : script_scope.
Notation "m ;;; k" := (bind m (λ _, k))
  (at level 100, right associativity) : script_scope.
Local Open Scope script_scope.

(** ** Dataset adapter and collation *)

(** What the script uses of a BERT tokenizer. *)
Record Tokenizer : Type := mkTokenizer {
  tokenize : string → list string;
  convert_token_to_id : string → Z
}.


(** [seq[idx]] for a Python integer: a negative index counts from the end,
    an index outside the sequence raises [IndexError]. *)
Definition getitem_at {A} (l : list A) (idx : Z) : result A :=
  let n := Z.of_nat (length l) in
  let i := if decide (idx < 0) then idx + n else idx in
  if decide (0 ≤ i < n) then
    match l !! Z.to_nat i with
    | Some x => Ok x
    | None => Raise IndexError
    end
  else Raise IndexError.

Record OnlineQueryDataset : Type := mkDataset {
  mode : string;
  df : DataFrame;
  len_ : nat;
  tokenizer : Tokenizer
}.

(** One sample: tokens tensor, segments tensor, label tensor or [None]. *)
Abbreviation Sample := (list Z * list Z * option Z)%type.


(** A batch of sequences, one row per sample. *)
Abbreviation Tensor2 := (list (list Z)).

(** [pad_sequence(seqs, batch_first=True)]: every sequence is extended on
    the right with zeros to the longest length of the batch. *)
Definition pad_to (max_len : nat) (s : list Z) : list Z :=
  s ++ replicate (max_len - length s)%nat 0.

Definition pad_sequence (seqs : list (list Z)) : result Tensor2 :=
  match seqs with
  | [] => Raise IndexError
  | _ =>
      let max_len := max_list (length <$> seqs) in
      Ok (pad_to max_len <$> seqs)
  end.

(** [torch.stack] of scalar label tensors; [None] is not a tensor. *)
Definition stack (ts : list (option Z)) : result (list Z) :=
  rmapM (λ t, match t with Some v => Ok v | None => Raise TypeError end) ts.

(** [torch.zeros(t.shape)] *)
Definition zeros_like (t : Tensor2) : Tensor2 := (λ row : list Z, (λ _, 0) <$> row) <$> t.

(** [t != 0] *)
Definition ne_zero (t : Tensor2) : list (list bool) :=
  (λ row : list Z, (λ x, bool_decide (x ≠ 0)) <$> row) <$> t.

(** [t.masked_fill(mask, v)] *)
Definition masked_fill (t : Tensor2) (mask : list (list bool)) (v : Z)
    : Tensor2 :=
  zip_with (zip_with (λ x (b : bool), if b then v else x)) t mask.

Definition create_mini_batch (samples : list Sample)
    : result (Tensor2 * Tensor2 * Tensor2 * option (list Z)) :=
  let tokens_tensors := (λ s : Sample, s.1.1) <$> samples in
  let segments_tensors := (λ s : Sample, s.1.2) <$> samples in
  rbind (getitem_at samples 0) (λ s0,
  rbind (match s0.2 with
         | Some _ =>
             rbind (stack ((λ s : Sample, s.2) <$> samples)) (λ t, Ok (Some t))
         | None => Ok None
         end) (λ label_ids,
  rbind (pad_sequence tokens_tensors) (λ tokens_tensors,
  rbind (pad_sequence segments_tensors) (λ segments_tensors,
  let masks_tensors := zeros_like tokens_tensors in
  let masks_tensors := masked_fill masks_tensors (ne_zero tokens_tensors) 1 in
  Ok (tokens_tensors, segments_tensors, masks_tensors, label_ids))))).

(** ** Python values the driver passes around without looking inside *)

Inductive PyObject : Type :=
  | PyNone
  | PyBool (b : bool)
  | PyInt (z : Z)
  | PyStr (s : string)
  | PyOpaque (what : string).

(** Truth value of an object in an [if]. *)
Definition truthy (o : PyObject) : bool :=
  match o with
  | PyNone => false
  | PyBool b => b
  | PyInt z => bool_decide (z ≠ 0)
  | PyStr s => bool_decide (s ≠ "")
  | PyOpaque _ => true
  end.

Definition of_optional_str (o : option string) : PyObject :=
  match o with
  | Some s => PyStr s
  | None => PyNone
  end.

(** The [argparse] namespace [main] builds: one attribute per
    [add_argument] call that is not commented out. *)
Record Namespace : Type := mkNamespace {
  data_path : string;
  epoch : Z;
  batch_size : Z;
  min_each_group : Z;
  maxlength : Z;
  do_test : bool;
  model_output : string;
  model_start : option string
}.

(** [vars(args)] *)
Definition vars (args : Namespace) : list (string * PyObject) :=
  [ ("data_path", PyStr (data_path args));
    ("epoch", PyInt (epoch args));
    ("batch_size", PyInt (batch_size args));
    ("min_each_group", PyInt (min_each_group args));
    ("maxlength", PyInt (maxlength args));
    ("do_test", PyBool (do_test args));
    ("model_output", PyStr (model_output args));
    ("model_start", of_optional_str (model_start args)) ].

(** [args.<name>] *)
Definition getattr (args : Namespace) (name : string) : M PyObject :=
  match (list_to_map (vars args) : gmap string PyObject) !! name with
  | Some v => ret v
  | None => raise (AttributeError name)
  end.

(** The names bound at module level once the file has been executed: its
    imports, functions and classes. [train], [save_model] and [predict] are
    methods of the class [Model] only. *)
Definition module_globals : list string :=
  [ "argparse"; "torch"; "BertTokenizer"; "BertForSequenceClassification";
    "clear_output"; "pd"; "np"; "os"; "DataLoader"; "pad_sequence"; "Dataset";
    "filter_toofew_toolong"; "reindex"; "create_label2index";
    "create_index2label"; "preprocessing"; "get_num_labels"; "bootstrap";
    "OnlineQueryDataset"; "create_mini_batch"; "output_split";
    "read_online_query"; "getOnlineQueryDataset"; "get_predictions"; "Model";
    "write_prediction"; "plain_accuracy"; "main";
    "__name__"; "__doc__"; "__file__"; "__builtins__" ].

(** Python's built-in functions and types. *)
Definition builtins : list string :=
  [ "abs"; "all"; "any"; "ascii"; "bin"; "bool"; "breakpoint"; "bytearray";
    "bytes"; "callable"; "chr"; "classmethod"; "compile"; "complex";
    "delattr"; "dict"; "dir"; "divmod"; "enumerate"; "eval"; "exec";
    "filter"; "float"; "format"; "frozenset"; "getattr"; "globals";
    "hasattr"; "hash"; "help"; "hex"; "id"; "input"; "int"; "isinstance";
    "issubclass"; "iter"; "len"; "list"; "locals"; "map"; "max";
    "memoryview"; "min"; "next"; "object"; "oct"; "open"; "ord"; "pow";
    "print"; "property"; "range"; "repr"; "reversed"; "round"; "set";
    "setattr"; "slice"; "sorted"; "staticmethod"; "str"; "sum"; "super";
    "tuple"; "type"; "vars"; "zip"; "__import__" ].

(** Looking a global name up: module globals first, then built-ins. *)
Definition load_global (name : string) : M unit :=
  if decide (name ∈ module_globals ++ builtins) then ret tt
  else raise (NameError name).

(** A call through a global name whose callee the model does not look into:
    the name is looked up, then the call is recorded. *)
Definition call_global (name : string) : M PyObject :=
  load_global name ;;; emit (ECall name) ;;; ret (PyOpaque name).

(** [os.path.join] on POSIX paths. *)
Definition starts_with_slash (s : string) : bool :=
  match s with
  | String c _ => bool_decide (c = "/"%char)
  | EmptyString => false
  end.

Fixpoint ends_with_slash (s : string) : bool :=
  match s with
  | EmptyString => false
  | String c EmptyString => bool_decide (c = "/"%char)
  | String _ s' => ends_with_slash s'
  end.

Definition path_join (a b : string) : string :=
  if starts_with_slash b then b
  else if bool_decide (a = "") || ends_with_slash a then a +:+ b
  else a +:+ "/" +:+ b.

Record DataLoader : Type := mkDataLoader {
  dataset : OnlineQueryDataset;
  loader_batch_size : Z;
  shuffle : bool
}.

(** [DataLoader(dataset, batch_size=..., shuffle=..., collate_fn=...)]: the
    batch size has to be positive. *)
Definition DataLoader_init (ds : OnlineQueryDataset) (bs : Z) (sh : bool)
    : M DataLoader :=
  if decide (bs ≤ 0) then raise ValueError else ret (mkDataLoader ds bs sh).

(** ** Sampling, splitting and the driver, over the outside world *)

Section Script.

(** [numpy.random.RandomState(seed)]: the stream of a generator seeded with
    [seed]. *)
Variable RandomState : Z → rng.

(** [pd.read_csv(path, sep=sep)]: the file's ['index'] and ['question']
    columns, or the exception reading raises. *)
Variable read_csv : string → string → result DataFrame.

(** [BertTokenizer.from_pretrained(name)] *)
Variable from_pretrained : string → result Tokenizer.

(** [os.path.exists(path)] *)
Variable path_exists : string → bool.

(** [DataFrame.sample(frac=frac, random_state=random_state)]: without
    replacement, [round(frac * len(df))] rows; a fraction above one or below
    zero is refused. Without [random_state] the draws come from [numpy]'s
    global generator. *)
Definition sample {I} (frac : Q) (random_state : option Z) (df : Frame I)
    : M (Frame I) :=
  if Qlt_le_dec 1 frac then raise ValueError
  else if Qlt_le_dec frac 0 then raise ValueError
  else
    let size := sample_size frac (length df) in
    match random_state with
    | Some seed =>
        r <- lift (choice df size (RandomState seed)) ;; ret r.1
    | None =>
        λ w, match choice df size (numpy_random w) with
             | Ok (rows, g') => (Ok rows, mkWorld (events w) g')
             | Raise e => (Raise e, w)
             end
    end.

(** [data.groupby('index')]: one group per distinct label, in increasing
    order of the label, each with its rows in frame order. *)
Definition groupby_index {I} (data : Frame I) : list (Z * Frame I) :=
  (λ k, (k, filter (λ p, index p.2 = k) data))
    <$> merge_sort Z.le (unique (col_index data)).

(** [GroupBy.apply(f)]: the frames [f] returns, one after the other, each
    row labelled by its group's key and its own label ([group_keys=True],
    the default, as pandas 2 applies it to every result). *)
Fixpoint groupby_apply {I} (f : Frame I → M (Frame I))
    (groups : list (Z * Frame I)) : M (Frame (Z * I)) :=
  match groups with
  | [] => ret []
  | kg :: rest =>
      part <- f kg.2 ;;
      parts <- groupby_apply f rest ;;
      ret (((λ p, ((kg.1, p.1), p.2)) <$> part) ++ parts)
  end.

(** The second level of the row labels. Applied over no group at all,
    [GroupBy.apply] returns an empty frame with a one-level index, whose
    [get_level_values(1)] raises [IndexError]. *)
Definition get_level_values_1 {I} (groups : list (Z * Frame I))
    (samples : Frame (Z * I)) : M (Frame I) :=
  match groups with
  | [] => raise IndexError
  | _ => ret ((λ p, (p.1.2, p.2)) <$> samples)
  end.

Definition bootstrap (data : DataFrame) (fraction : Q) : M DataFrame :=
  let sampleClass := λ classgroup : DataFrame,
    sample fraction None classgroup in
  let groups := groupby_index data in
  samples <- groupby_apply sampleClass groups ;;
  get_level_values_1 groups samples.

Definition output_split (df : DataFrame) (fraction : Q)
    : M (DataFrame * DataFrame * DataFrame) :=
  df_train <- bootstrap df fraction ;;
  let df_remain := drop_duplicates_keep_false (df_train ++ df) in
  df_val <- sample (1 # 2) (Some 5) df_remain ;;
  let df_test := drop_duplicates_keep_false (df_val ++ df_remain) in
  emit (EPrintCount "訓練樣本數：" (length df_train)) ;;;
  emit (EPrintCount "validation樣本數：" (length df_val)) ;;;
  emit (EPrintCount "預測樣本數：" (length df_test)) ;;;
  ret (df_train, df_val, df_test).

Definition read_online_query (path : string) : M DataFrame :=
  emit (EReadCsv path) ;;; lift (read_csv path ",").

Definition TAB : string := String (ascii_of_nat 9) EmptyString.

(** [OnlineQueryDataset.__init__] *)
Definition OnlineQueryDataset_init (mode : string) (df : DataFrame)
    (tokenizer : Tokenizer) (path : option string) : M OnlineQueryDataset :=
  if decide (mode ∈ ["train"; "val"; "test"]) then
    df <- (if truthy (of_optional_str path) then
             emit (EReadCsv (default "" path)) ;;;
             lift (read_csv (default "" path) TAB)
           else ret df) ;;
    ret (mkDataset mode df (length df) tokenizer)
  else raise AssertionError.

Definition write_prediction (pred output_name : PyObject) : M unit :=
  (if path_exists "prediction" then ret tt
   else emit (EMakeDirs "prediction")) ;;;
  path <- match output_name with
          | PyStr s => ret (path_join (path_join "prediction" s) ".txt")
          | _ => raise TypeError
          end ;;
  emit (EPrint ("Saving prediction to " +:+ path)) ;;;
  emit (EOpenWrite path).

Definition main (args : Namespace) : M unit :=
  if decide (do_test args = true) then
    if negb (truthy (of_optional_str (model_start args))) then
      emit (EPrint "In test mode, you should provide the model to evaluate.")
    else
      pred <- call_global "predict" ;;
      load_global "write_prediction" ;;;
      model_prediction <- getattr args "model_prediction" ;;
      write_prediction model_prediction pred
  else
    df <- (load_global "read_online_query" ;;;
           read_online_query (data_path args)) ;;
    df <- (load_global "preprocessing" ;;;
           ret (preprocessing df (min_each_group args) (maxlength args))) ;;
    label2index <- (load_global "create_label2index" ;;;
                    ret (create_label2index df)) ;;
    df <- (load_global "reindex" ;;; lift (reindex df label2index)) ;;
    num_labels <- (load_global "get_num_labels" ;;; ret (get_num_labels df)) ;;
    split <- (load_global "output_split" ;;; output_split df (7 # 10)) ;;
    let df_train := split.1.1 in
    let df_val := split.1.2 in
    let df_test := split.2 in
    let PRETRAINED_MODEL_NAME := "bert-base-chinese" in
    tokenizer <- (load_global "BertTokenizer" ;;;
                  emit (EFromPretrained PRETRAINED_MODEL_NAME) ;;;
                  lift (from_pretrained PRETRAINED_MODEL_NAME)) ;;
    (load_global "clear_output" ;;; emit EClearOutput) ;;;
    trainset <- (load_global "OnlineQueryDataset" ;;;
                 OnlineQueryDataset_init "train" df_train tokenizer None) ;;
    valset <- (load_global "OnlineQueryDataset" ;;;
               OnlineQueryDataset_init "val" df_val tokenizer None) ;;
    testset <- (load_global "OnlineQueryDataset" ;;;
                OnlineQueryDataset_init "test" df_test tokenizer None) ;;
    let BATCH_SIZE := batch_size args in
    trainloader <- (load_global "DataLoader" ;;;
                    DataLoader_init trainset BATCH_SIZE true) ;;
    valloader <- (load_global "DataLoader" ;;;
                  DataLoader_init valset BATCH_SIZE false) ;;
    testloader <- (load_global "DataLoader" ;;;
                   DataLoader_init testset BATCH_SIZE false) ;;
    let PRETRAINED_MODEL_NAME :=
      if truthy (of_optional_str (model_start args))
      then default "" (model_start args) else PRETRAINED_MODEL_NAME in
    model <- call_global "train" ;;
    call_global "save_model" ;;;
    predictions <- call_global "get_predictions" ;;
    model_prediction <- getattr args "model_prediction" ;;
    (if truthy model_prediction then
       load_global "write_prediction" ;;;
       write_prediction (PyStr (model_output args)) predictions
     else ret tt) ;;;
    (load_global "plain_accuracy" ;;; emit (ECall "plain_accuracy")) ;;;
    emit (EPrint "Testset accuracy: ").


(** The exception a run of [main] ends with when it does not return early:
    the first of its steps that fails. *)
Definition main_error (args : Namespace) : Exn :=
  if do_test args then NameError "predict"
  else
    match read_csv (data_path args) "," with
    | Raise e => e
    | Ok raw =>
        match preprocessing raw (min_each_group args) (maxlength args) with
        | [] => IndexError
        | _ =>
            match from_pretrained "bert-base-chinese" with
            | Raise e => e
            | Ok _ =>
                if decide (batch_size args ≤ 0) then ValueError
                else NameError "train"
            end
        end
    end.

End Script.

(** ** Describing runs *)

(** [main] takes its early return: test mode without a model to start
    from. *)
Definition early_return (args : Namespace) : Prop :=
  do_test args = true ∧ truthy (of_optional_str (model_start args)) = false.

(** Events that leave nothing behind: no directory made, no file written,
    no model trained, saved or asked for predictions. *)
Definition no_output (ev : Event) : Prop :=
  match ev with
  | EPrint _ | EPrintCount _ _ | EReadCsv _ | EFromPretrained _
  | EClearOutput => True
  | ECall _ | EMakeDirs _ | EOpenWrite _ => False
  end.

(** Run from [w], the computation [m] ends with a result satisfying [Q]
    after events that leave nothing behind. *)
Definition post {A} (m : M A) (w : World) (Q : result A → Prop) : Prop :=
  ∃ new, events (m w).2 = events w ++ new ∧ Forall no_output new ∧ Q (m w).1.


(** Rows drawn class by class: [parts] holds, for each group in turn, a
    selection of [round(frac * size)] of its rows. *)
Definition drawn_per_class {I} (frac : Q)
    (groups : list (Z * Frame I)) (parts : list (Frame I)) : Prop :=
  Forall2 (λ kg part, part ⊆+ kg.2 ∧
                      length part = sample_size frac (length kg.2))
    groups parts.



(** ** Shapes of batches *)

Definition tokens_of (s : Sample) : list Z := s.1.1.
Definition segments_of (s : Sample) : list Z := s.1.2.
Definition label_of (s : Sample) : option Z := s.2.

(** Longest token sequence of a batch. *)
Definition max_token_len (samples : list Sample) : nat :=
  max_list (length ∘ tokens_of <$> samples).

(** Longest segment sequence of a batch. *)
Definition max_segment_len (samples : list Sample) : nat :=
  max_list (length ∘ segments_of <$> samples).

(** A batch whose first sample carries a label carries one on every
    sample. *)
Definition labels_stackable (samples : list Sample) : Prop :=
  ∀ s0, head samples = Some s0 → is_Some (label_of s0) →
    Forall (λ s, is_Some (label_of s)) samples.

(** No token id of the batch is [0], the id used for padding. *)
Definition no_zero_token_id (samples : list Sample) : Prop :=
  Forall (λ s, Forall (λ t, t ≠ 0) (tokens_of s)) samples.



(** The mask of one padded row: [1] where the entry is not [0]. *)
Definition mask_row (row : list Z) : list Z :=
  (λ x, if bool_decide (x ≠ 0) then 1 else 0) <$> row.

(** ** What [__getitem__] builds from a row *)

(** [OnlineQueryDataset.__len__] *)
Definition OnlineQueryDataset_len (self : OnlineQueryDataset) : nat :=
  len_ self.





(** ** Example data *)

Definition example_df : DataFrame :=
  [ (0%nat, mkRow 5 "a"); (1%nat, mkRow 5 "b");
    (2%nat, mkRow 7 "c"); (3%nat, mkRow 5 "d") ].

Definition example_world : World := mkWorld [] [2; 7; 1; 8]%nat.

Definition example_RandomState : Z → rng := λ _, [3; 1; 4]%nat.

Definition example_tokenizer : Tokenizer :=
  mkTokenizer (λ text, [text])
    (λ token, if decide (token = "[CLS]") then 101
              else if decide (token = "[SEP]") then 102
              else if decide (token = "[PAD]") then 0
              else 100).


(** A labelled batch of two samples of different lengths. *)
Definition example_batch : list Sample :=
  [ ([101; 7; 8; 102], [1; 1; 1; 1], Some 0);
    ([101; 9; 102], [1; 1; 1], Some 1) ].

(** A sample whose second token has the id of the padding token. *)
Definition sample_with_zero_id : Sample := ([101; 0; 102], [1; 1; 1], None).

Definition batch_with_zero_id : list Sample := [sample_with_zero_id].




(** [--data_path data.csv --model_output out --do_test] *)
Definition example_test_args : Namespace :=
  mkNamespace "data.csv" 30 64 3 30 true "out" None.


(** Every file holds [example_df]. *)
Definition example_file : string → string → result DataFrame :=
  λ _ _, Ok example_df.

Definition example_pretrained : string → result Tokenizer :=
  λ _, Ok example_tokenizer.

Definition no_path : string → bool := λ _, false.

(** A frame in which one label and question occur twice. *)
Definition example_df_repeated : DataFrame :=
  [ (0%nat, mkRow 5 "a"); (1%nat, mkRow 5 "a"); (2%nat, mkRow 7 "c") ].

(** * Properties *)

(** ** Lists and frames *)

Lemma filter_ext_in {A} (P Q : A → Prop)
    `{∀ x, Decision (P x)} `{∀ x, Decision (Q x)} (l : list A) :
  (∀ x, x ∈ l → (P x ↔ Q x)) → filter P l = filter Q l.
Proof.
  induction l as [|a l IH]; intros HPQ; [done|].
  rewrite !filter_cons.
  assert (P a ↔ Q a) as Ha by (apply HPQ; left).
  rewrite IH; [|intros x Hx; apply HPQ; by right].
  destruct (decide (P a)), (decide (Q a)); tauto.
Qed.

Lemma elem_of_unique (l : list Z) (x : Z) : x ∈ unique l ↔ x ∈ l.
Proof.
  induction l as [|a l IH]; simpl; [done|].
  rewrite !elem_of_cons, list_elem_of_filter, IH.
  destruct (decide (x = a)); tauto.
Qed.

Lemma NoDup_unique (l : list Z) : NoDup (unique l).
Proof.
  induction l as [|a l IH]; simpl; [constructor|].
  constructor; [|by apply NoDup_filter].
  rewrite list_elem_of_filter. intros [Hne _]. by apply Hne.
Qed.

Lemma elem_of_col_index {I} (df : Frame I) (v : Z) :
  v ∈ col_index df ↔ ∃ p, p ∈ df ∧ index p.2 = v.
Proof.
  unfold col_index. rewrite list_elem_of_fmap.
  split; intros (p & H1 & H2); exists p; by split.
Qed.

Lemma count_label_pos {I} (df : Frame I) (p : I * Row) :
  p ∈ df → (0 < count_label (index p.2) df)%nat.
Proof.
  intros Hp. unfold count_label.
  assert (p ∈ filter (λ q : I * Row, index q.2 = index p.2) df) as Hin
    by (by apply list_elem_of_filter).
  destruct (filter _ df); [by apply elem_of_nil in Hin | simpl; lia].
Qed.

Lemma elem_of_value_counts {I} (df : Frame I) (v : Z) (c : nat) :
  (v, c) ∈ value_counts df ↔ v ∈ col_index df ∧ c = count_label v df.
Proof.
  unfold value_counts. rewrite merge_sort_Permutation, list_elem_of_fmap.
  split.
  - intros (w & Heq & Hw). simpl in Heq. injection Heq as -> ->.
    split; [by apply elem_of_unique|done].
  - intros [Hv ->]. exists v. by rewrite elem_of_unique.
Qed.

Lemma length_value_counts {I} (df : Frame I) :
  length (value_counts df) = length (unique (col_index df)).
Proof.
  unfold value_counts. by rewrite merge_sort_Permutation, length_fmap.
Qed.

(** ** Filtering *)


(** ** Label reindexing *)

Lemma dict_of_snoc {K V} `{Countable K} (kvs : list (K * V)) (kv : K * V) :
  dict_of (kvs ++ [kv]) = <[kv.1 := kv.2]> (dict_of kvs).
Proof. unfold dict_of. by rewrite foldl_app. Qed.

Lemma dict_of_lookup {K V} `{Countable K} (kvs : list (K * V)) (k : K) (v : V) :
  NoDup (kvs.*1) → dict_of kvs !! k = Some v ↔ (k, v) ∈ kvs.
Proof.
  induction kvs as [|[k' v'] kvs IH] using rev_ind; intros Hnd.
  - unfold dict_of; simpl. rewrite lookup_empty, elem_of_nil. by split.
  - rewrite fmap_app in Hnd. apply NoDup_app in Hnd as (Hnd & Hfresh & _).
    rewrite dict_of_snoc, lookup_insert_Some, IH, elem_of_app by done.
    simpl. rewrite list_elem_of_singleton. split.
    + intros [[-> ->] | [_ Hin]]; [by right | by left].
    + intros [Hin | [= -> ->]]; [|by left].
      right. split; [|done]. intros Heq.
      apply (Hfresh k'); [|simpl; left].
      apply list_elem_of_fmap. exists (k, v). by rewrite Heq.
Qed.

Lemma elem_of_enumerate {A} (l : list A) (i : nat) (x : A) :
  (i, x) ∈ enumerate l ↔ l !! i = Some x.
Proof.
  unfold enumerate. rewrite elem_of_lookup_imap. split.
  - by intros (j & y & [= -> ->] & Hj).
  - intros Hi. by exists i, x.
Qed.

Lemma enumerate_fst {A} (l : list A) : (enumerate l).*1 = seq 0 (length l).
Proof.
  unfold enumerate. rewrite fmap_imap.
  rewrite <- (list_fmap_id (seq 0 (length l))), <- (imap_seq_0 l id).
  by apply imap_ext.
Qed.

Lemma enumerate_snd {A} (l : list A) : (enumerate l).*2 = l.
Proof.
  unfold enumerate. rewrite fmap_imap.
  transitivity (imap (const id) l); [by apply imap_ext|].
  by rewrite imap_const, list_fmap_id.
Qed.

Lemma create_index2label_lookup {I} (df : Frame I) (i : nat) (v : Z) :
  create_index2label df !! i = Some v ↔ unique (col_index df) !! i = Some v.
Proof.
  unfold create_index2label. rewrite dict_of_lookup.
  - apply elem_of_enumerate.
  - rewrite enumerate_fst. apply NoDup_seq.
Qed.

Lemma create_label2index_lookup {I} (df : Frame I) (v : Z) (i : nat) :
  create_label2index df !! v = Some i ↔ unique (col_index df) !! i = Some v.
Proof.
  unfold create_label2index. rewrite dict_of_lookup.
  - rewrite list_elem_of_fmap. split.
    + intros ([j w] & [= -> ->] & Hin). by apply elem_of_enumerate.
    + intros Hi. exists (i, v). split; [done|]. by apply elem_of_enumerate.
  - rewrite <- list_fmap_compose.
    replace (fst ∘ (λ iv : nat * Z, (iv.2, iv.1)) <$> enumerate (unique (col_index df)))
      with (unique (col_index df)); [apply NoDup_unique|].
    rewrite <- (enumerate_snd (unique (col_index df))) at 1.
    by apply list_fmap_ext.
Qed.

Lemma reindex_Ok {I} (df : Frame I) (m : gmap Z nat) :
  (∀ p, p ∈ df → is_Some (m !! index p.2)) →
  reindex df m
  = Ok ((λ p, (p.1, mkRow (label_code m (index p.2)) (question p.2))) <$> df).
Proof.
  unfold reindex. induction df as [|p df IH]; intros Hdom; [done|].
  destruct (Hdom p) as [i Hi]; [by left|].
  simpl. unfold getindex4label at 1, label_code at 1. rewrite Hi. simpl.
  rewrite IH; [done|]. intros q Hq. apply Hdom. by right.
Qed.

Lemma filter_ne_fmap (f : Z → Z) (a : Z) (k : list Z) :
  (∀ x, x ∈ k → f x = f a → x = a) →
  filter (λ y, y ≠ f a) (f <$> k) = f <$> filter (λ x, x ≠ a) k.
Proof.
  induction k as [|x k IH]; intros Hinj; [done|].
  rewrite fmap_cons, !filter_cons, IH by (intros y Hy; apply Hinj; by right).
  destruct (decide (x = a)) as [->|Hne].
  - rewrite decide_False by tauto. by rewrite decide_False by tauto.
  - rewrite decide_True, decide_True; [done..|].
    intros Heq. apply Hne, Hinj; [by left|done].
Qed.

Lemma unique_fmap (f : Z → Z) (l : list Z) :
  (∀ x y, x ∈ l → y ∈ l → f x = f y → x = y) →
  unique (f <$> l) = f <$> unique l.
Proof.
  induction l as [|a l IH]; intros Hinj; [done|].
  rewrite fmap_cons. cbn [unique].
  rewrite IH by (intros x y Hx Hy; apply Hinj; by right).
  rewrite fmap_cons. f_equal. apply filter_ne_fmap.
  intros x Hx. apply Hinj; [right; by apply elem_of_unique | by left].
Qed.

Lemma create_label2index_dom {I} (df : Frame I) (v : Z) :
  v ∈ col_index df ↔ is_Some (create_label2index df !! v).
Proof.
  rewrite <- elem_of_unique, list_elem_of_lookup. unfold is_Some.
  by setoid_rewrite create_label2index_lookup.
Qed.

(** C6. [create_label2index] maps the distinct labels of the frame one to
    one onto 0..n-1, n the number of labels; [create_index2label] is the
    inverse mapping; and [reindex] with that mapping succeeds, leaves row
    labels and questions alone, makes the ['index'] column range over exactly
    0..n-1 and keeps the number of labels. *)
Theorem label_reindexing_bijection {I} (df : Frame I) :
  let n := get_num_labels df in
  let label2index := create_label2index df in
  let index2label := create_index2label df in
  (∀ v, v ∈ col_index df ↔ is_Some (label2index !! v)) ∧
  (∀ v i, label2index !! v = Some i → (i < n)%nat) ∧
  (∀ i, (i < n)%nat → ∃ v, label2index !! v = Some i) ∧
  (∀ v w i, label2index !! v = Some i → label2index !! w = Some i → v = w) ∧
  (∀ v i, index2label !! i = Some v ↔ label2index !! v = Some i) ∧
  ∃ df',
    reindex df label2index = Ok df' ∧
    df'.*1 = df.*1 ∧
    (question ∘ snd <$> df') = (question ∘ snd <$> df) ∧
    (∀ z, z ∈ col_index df' ↔ ∃ i, (i < n)%nat ∧ z = Z.of_nat i) ∧
    get_num_labels df' = n.
Proof.
  intros n l2i i2l.
  assert (Hn : n = length (unique (col_index df)))
    by apply length_value_counts.
  assert (Hl2i : ∀ v i, l2i !! v = Some i ↔ unique (col_index df) !! i = Some v)
    by apply create_label2index_lookup.
  assert (Hdom : ∀ v, v ∈ col_index df ↔ is_Some (l2i !! v)).
  { intros v. rewrite <- elem_of_unique, list_elem_of_lookup.
    unfold is_Some. by setoid_rewrite Hl2i. }
  assert (Hlt : ∀ v i, l2i !! v = Some i → (i < n)%nat).
  { intros v i Hv. rewrite Hn. apply Hl2i in Hv. by eapply lookup_lt_Some. }
  assert (Hinj : ∀ v w i, l2i !! v = Some i → l2i !! w = Some i → v = w).
  { intros v w i Hv Hw. apply Hl2i in Hv, Hw. congruence. }
  assert (Hsurj : ∀ i, (i < n)%nat → ∃ v, l2i !! v = Some i).
  { intros i Hi. rewrite Hn in Hi.
    destruct (lookup_lt_is_Some_2 _ _ Hi) as [v Hv]. exists v. by apply Hl2i. }
  assert (Hcode : ∀ x y, x ∈ col_index df → y ∈ col_index df →
                         label_code l2i x = label_code l2i y → x = y).
  { intros x y [i Hx]%Hdom [j Hy]%Hdom. unfold label_code.
    rewrite Hx, Hy. simpl. intros Heq%Nat2Z.inj. subst j. by eapply Hinj. }
  split_and!; try done.
  { intros v i. unfold i2l. rewrite create_index2label_lookup. by rewrite Hl2i. }
  eexists. split.
  { apply reindex_Ok. intros p Hp. apply Hdom, elem_of_col_index. eauto. }
  set (df' := _ <$> df).
  assert (Hcol : col_index df' = label_code l2i <$> col_index df).
  { unfold df', col_index. rewrite <- !list_fmap_compose. by apply list_fmap_ext. }
  split_and!.
  - unfold df'. rewrite <- list_fmap_compose. by apply list_fmap_ext.
  - unfold df'. rewrite <- list_fmap_compose. by apply list_fmap_ext.
  - intros z. rewrite Hcol, list_elem_of_fmap. split.
    + intros (v & -> & Hv). destruct (proj1 (Hdom v) Hv) as [i Hi].
      exists i. split; [by eapply Hlt|]. unfold label_code. by rewrite Hi.
    + intros (i & Hi & ->). destruct (Hsurj i Hi) as [v Hv]. exists v.
      split; [unfold label_code; by rewrite Hv|]. apply Hdom. eauto.
  - unfold get_num_labels. rewrite length_value_counts, Hcol.
    rewrite unique_fmap by done. by rewrite length_fmap.
Qed.

(** ** Dataset adapter *)




(** ** Collation *)

Lemma stack_Some (ls : list Z) : stack (Some <$> ls) = Ok ls.
Proof.
  unfold stack. induction ls as [|x ls IH]; [done|].
  rewrite fmap_cons. cbn [rmapM rbind]. by rewrite IH.
Qed.

Lemma Forall_is_Some_fmap {A} (ts : list (option A)) :
  Forall is_Some ts → ∃ ls, ts = Some <$> ls.
Proof.
  induction 1 as [|t ts [x ->] _ [ls ->]]; [by exists []|].
  by exists (x :: ls).
Qed.

Lemma stack_None (ts : list (option Z)) :
  None ∈ ts → stack ts = Raise TypeError.
Proof.
  unfold stack. induction ts as [|[x|] ts IH]; intros Hin.
  - by apply elem_of_nil in Hin.
  - apply elem_of_cons in Hin as [|Hin]; [done|].
    cbn [rmapM rbind]. by rewrite IH.
  - done.
Qed.

Lemma masked_fill_zeros (t : Tensor2) :
  masked_fill (zeros_like t) (ne_zero t) 1 = mask_row <$> t.
Proof.
  unfold masked_fill, zeros_like, ne_zero.
  induction t as [|row t IH]; [done|].
  rewrite !fmap_cons. cbn [zip_with]. rewrite IH. f_equal.
  unfold mask_row. induction row as [|x row IHrow]; [done|].
  rewrite !fmap_cons. cbn [zip_with]. by rewrite IHrow.
Qed.

Lemma pad_sequence_Ok (seqs : list (list Z)) :
  seqs ≠ [] → pad_sequence seqs = Ok (pad_to (max_list (length <$> seqs)) <$> seqs).
Proof. by destruct seqs. Qed.

Lemma length_pad_to (L : nat) (s : list Z) :
  (length s ≤ L)%nat → length (pad_to L s) = L.
Proof.
  intros Hle. unfold pad_to. rewrite length_app, length_replicate. lia.
Qed.

Lemma lookup_pad_to (L : nat) (s : list Z) (j : nat) :
  (j < L)%nat →
  pad_to L s !! j = if decide (j < length s)%nat then s !! j else Some 0.
Proof.
  intros Hj. unfold pad_to. destruct (decide (j < length s)%nat).
  - by apply lookup_app_l.
  - rewrite lookup_app_r by lia. apply lookup_replicate_2. lia.
Qed.

Lemma length_le_max_token_len (samples : list Sample) (s : Sample) :
  s ∈ samples → (length (tokens_of s) ≤ max_token_len samples)%nat.
Proof.
  intros Hs. apply max_list_elem_of_le, list_elem_of_fmap. by exists s.
Qed.


(** What [create_mini_batch] returns on a batch it accepts. *)
Lemma create_mini_batch_Ok (samples : list Sample) :
  samples ≠ [] → labels_stackable samples →
  ∃ label_ids,
    create_mini_batch samples
    = Ok (pad_to (max_token_len samples) ∘ tokens_of <$> samples,
          pad_to (max_segment_len samples) ∘ segments_of <$> samples,
          mask_row ∘ pad_to (max_token_len samples) ∘ tokens_of <$> samples,
          label_ids) ∧
    match head samples ≫= label_of with
    | Some _ => ∃ ls, label_ids = Some ls ∧ label_of <$> samples = Some <$> ls
    | None => label_ids = None
    end.
Proof.
  intros Hne Hstack. unfold create_mini_batch.
  destruct samples as [|s0 samples']; [done|].
  set (samples := s0 :: samples') in *.
  assert (getitem_at samples 0 = Ok s0) as -> by done.
  cbn [rbind].
  assert (Hpad : ∀ f : Sample → list Z,
    pad_sequence (f <$> samples)
    = Ok (pad_to (max_list (length ∘ f <$> samples)) ∘ f <$> samples)).
  { intros f. rewrite pad_sequence_Ok by done.
    by rewrite <- !list_fmap_compose. }
  rewrite !(Hpad (λ s, s.1.1)), !(Hpad (λ s, s.1.2)).
  fold (max_token_len samples). fold (max_segment_len samples).
  destruct (s0.2) as [l0|] eqn:Hl0.
  - destruct (Forall_is_Some_fmap (label_of <$> samples)) as [ls Hls].
    { apply Forall_fmap. apply (Hstack s0); [done|]. unfold label_of. by rewrite Hl0. }
    unfold label_of in Hls. rewrite Hls, stack_Some. cbn [rbind].
    rewrite masked_fill_zeros, <- !list_fmap_compose.
    eexists. split; [reflexivity|].
    unfold samples at 1. cbn. unfold label_of at 1. rewrite Hl0. eauto.
  - cbn [rbind]. rewrite masked_fill_zeros, <- !list_fmap_compose.
    eexists. split; [reflexivity|].
    unfold samples at 1. cbn. unfold label_of at 1. by rewrite Hl0.
Qed.

(** C9. On an empty list of samples [create_mini_batch] raises (the lookup
    [samples[0]] is out of range), so whenever it returns a batch the list it
    was given had at least one sample. *)
Theorem create_mini_batch_needs_sample :
  create_mini_batch [] = Raise IndexError ∧
  ∀ samples batch, create_mini_batch samples = Ok batch → samples ≠ [].
Proof.
  split; [done|]. by intros samples batch Hok ->.
Qed.


Lemma stack_Ok_inv (ts : list (option Z)) (ls : list Z) :
  stack ts = Ok ls → ts = Some <$> ls.
Proof.
  unfold stack. revert ls. induction ts as [|[x|] ts IH]; intros ls Hok.
  - by injection Hok as <-.
  - cbn [rmapM rbind] in Hok. destruct (rmapM _ ts) as [ls'|e]; [|done].
    injection Hok as <-. by rewrite (IH ls').
  - done.
Qed.

(** Whatever [create_mini_batch] returns is the padded tokens, the padded
    segments and the mask of the padded tokens. *)
Lemma create_mini_batch_inv (samples : list Sample)
    (tokens_tensors segments_tensors masks_tensors : Tensor2)
    (label_ids : option (list Z)) :
  create_mini_batch samples
  = Ok (tokens_tensors, segments_tensors, masks_tensors, label_ids) →
  tokens_tensors = pad_to (max_token_len samples) ∘ tokens_of <$> samples ∧
  segments_tensors
  = pad_to (max_segment_len samples) ∘ segments_of <$> samples ∧
  masks_tensors = mask_row <$> tokens_tensors ∧
  labels_stackable samples ∧
  match head samples ≫= label_of with
  | Some _ => ∃ ls, label_ids = Some ls ∧ label_of <$> samples = Some <$> ls
  | None => label_ids = None
  end.
Proof.
  intros Hok.
  assert (Hne : samples ≠ []) by (by intros ->).
  assert (Hstack : labels_stackable samples).
  { intros s0 Hhead Hl0. unfold create_mini_batch in Hok.
    destruct samples as [|s samples']; [done|]. injection Hhead as ->.
    set (samples := s0 :: samples') in *.
    assert (getitem_at samples 0 = Ok s0) as Hget by done.
    rewrite Hget in Hok. cbn [rbind] in Hok.
    destruct Hl0 as [l0 Hl0]. unfold label_of in Hl0. rewrite Hl0 in Hok.
    destruct (stack _) as [ls|e] eqn:Hls; [|done].
    apply stack_Ok_inv in Hls.
    change ((λ s : Sample, s.2) <$> samples) with (label_of <$> samples) in Hls.
    assert (Forall is_Some (label_of <$> samples)) as HF.
    { rewrite Hls. apply Forall_fmap, Forall_true. by eexists. }
    rewrite Forall_fmap in HF. exact HF. }
  destruct (create_mini_batch_Ok samples Hne Hstack) as (l' & Hok' & Hlab).
  rewrite Hok' in Hok. injection Hok as <- <- <- <-.
  split_and!; [done | done | | done | done].
  by rewrite <- !list_fmap_compose.
Qed.


(** C3, as the code has it. On a non-empty batch, [create_mini_batch]
    returns whenever every sample carries a label if the first one does, and
    in whatever it returns the mask row of each sample is as long as the
    sample's padded token row and holds [1] exactly where that row is not
    [0]. If no token id of the batch is [0], the mask therefore holds [1]
    exactly at the positions of the sample's own tokens and [0] exactly at
    the padding positions. *)
Theorem create_mini_batch_mask (samples : list Sample) :
  samples ≠ [] →
  (labels_stackable samples → ∃ batch, create_mini_batch samples = Ok batch) ∧
  ∀ tokens_tensors segments_tensors masks_tensors label_ids,
    create_mini_batch samples
    = Ok (tokens_tensors, segments_tensors, masks_tensors, label_ids) →
    ∀ i s, samples !! i = Some s →
      ∃ row mrow,
        tokens_tensors !! i = Some row ∧ masks_tensors !! i = Some mrow ∧
        length mrow = length row ∧
        (∀ j t, row !! j = Some t →
           mrow !! j = Some (if decide (t = 0) then 0 else 1)) ∧
        (no_zero_token_id samples →
         ∀ j, (j < length row)%nat →
           (mrow !! j = Some 1 ↔ (j < length (tokens_of s))%nat) ∧
           (mrow !! j = Some 0 ↔ (length (tokens_of s) ≤ j)%nat)).
Proof.
  intros Hne. split.
  { intros Hstack.
    destruct (create_mini_batch_Ok samples Hne Hstack) as (l & Hok & _). eauto. }
  intros toks segs masks labels Hok i s Hs.
  apply create_mini_batch_inv in Hok as (-> & _ & -> & _ & _).
  assert (Hin : s ∈ samples) by (by eapply list_elem_of_lookup_2).
  exists (pad_to (max_token_len samples) (tokens_of s)),
         (mask_row (pad_to (max_token_len samples) (tokens_of s))).
  rewrite !list_lookup_fmap, Hs. split_and!; [done | done | | | ].
  { unfold mask_row. by rewrite length_fmap. }
  { intros j t Ht. unfold mask_row. rewrite list_lookup_fmap, Ht. simpl.
    destruct (decide (t = 0)) as [->|Hnz]; [done|].
    by rewrite bool_decide_eq_true_2. }
  intros Hnz.
  rewrite length_pad_to by (by apply length_le_max_token_len).
  intros j Hj. unfold mask_row.
  rewrite list_lookup_fmap, lookup_pad_to by done.
  destruct (decide (j < length (tokens_of s))%nat) as [Hlt|Hge].
  - destruct (lookup_lt_is_Some_2 _ _ Hlt) as [t Ht]. rewrite Ht. simpl.
    assert (t ≠ 0) as Htnz.
    { unfold no_zero_token_id in Hnz. rewrite Forall_forall in Hnz.
      specialize (Hnz s Hin). rewrite Forall_forall in Hnz.
      apply Hnz. by eapply list_elem_of_lookup_2. }
    rewrite bool_decide_eq_true_2 by done. split; split; (done || lia).
  - simpl. split; split; (done || lia).
Qed.

(** ** Sampling *)

Lemma round_bounds (frac : Q) (n : nat) :
  (0 <= frac)%Q → (frac <= 1)%Q →
  0 ≤ round (frac * inject_Z (Z.of_nat n)) ≤ Z.of_nat n.
Proof.
  destruct frac as [a b]. unfold Qle, round. cbn.
  rewrite Pos.mul_1_r. intros Ha Hb.
  set (N := a * Z.of_nat n). set (d := Z.pos b).
  assert (0 < d) by (unfold d; lia).
  assert (0 ≤ N ≤ d * Z.of_nat n) by (unfold N, d; nia).
  pose proof (Z.div_mod N d ltac:(lia)) as Hdm.
  pose proof (Z.mod_pos_bound N d ltac:(lia)) as Hmod.
  assert (0 ≤ N `div` d) by (apply Z.div_pos; lia).
  set (q := N `div` d) in *. set (r := N `mod` d) in *.
  clearbody q r N d.
  assert (q ≤ Z.of_nat n) by nia.
  assert (0 < r → q < Z.of_nat n)
    by (intros Hr; apply (Z.mul_lt_mono_pos_l d); lia).
  repeat case_decide; try destruct (Z.even q); lia.
Qed.

Lemma sample_size_le (frac : Q) (n : nat) :
  (0 <= frac)%Q → (frac <= 1)%Q → (sample_size frac n ≤ n)%nat.
Proof.
  intros H0 H1. unfold sample_size.
  pose proof (round_bounds frac n H0 H1). lia.
Qed.

Lemma sample_size_0 (frac : Q) : sample_size frac 0 = 0%nat.
Proof.
  destruct frac as [a b]. unfold sample_size, round. cbn.
  rewrite Z.mul_0_r. cbn. rewrite Zmod_0_l, Zdiv_0_l.
  by rewrite decide_True by lia.
Qed.

Lemma draw_submseteq {A} (pool : list A) (k : nat) (g : rng) :
  (draw pool k g).1 ⊆+ pool.
Proof.
  revert pool g. induction k as [|k IH]; intros pool g; cbn [draw].
  { apply submseteq_nil_l. }
  destruct (pool !! _) as [x|] eqn:Hx; [|apply submseteq_nil_l].
  specialize (IH (delete (hd 0%nat g `mod` length pool)%nat pool) (tl g)).
  destruct (draw (delete _ pool) k (tl g)) as [xs g'].
  cbn [fst] in *. rewrite (delete_Permutation _ _ _ Hx).
  by apply submseteq_skip.
Qed.

Lemma draw_length {A} (pool : list A) (k : nat) (g : rng) :
  (k ≤ length pool)%nat → length (draw pool k g).1 = k.
Proof.
  revert pool g. induction k as [|k IH]; intros pool g Hk; cbn [draw]; [done|].
  destruct (lookup_lt_is_Some_2 pool (hd 0%nat g `mod` length pool)%nat)
    as [x Hx]; [apply Nat.mod_upper_bound; lia|].
  rewrite Hx.
  specialize (IH (delete (hd 0%nat g `mod` length pool)%nat pool) (tl g)).
  destruct (draw (delete _ pool) k (tl g)) as [xs g'].
  cbn [fst length] in *. rewrite IH; [done|].
  rewrite length_delete by eauto. lia.
Qed.

Section Split.

Variable RandomState : Z → rng.

(** [sample] on a fraction between zero and one: it returns
    [round(frac * len(df))] of the frame's rows, none of them twice, and
    prints nothing. *)
Lemma sample_spec {I} (frac : Q) (random_state : option Z) (df : Frame I)
    (w : World) :
  (0 <= frac)%Q → (frac <= 1)%Q →
  ∃ rows w',
    sample RandomState frac random_state df w = (Ok rows, w') ∧
    rows ⊆+ df ∧
    length rows = sample_size frac (length df) ∧
    events w' = events w.
Proof.
  intros H0 H1. unfold sample.
  destruct (Qlt_le_dec 1 frac) as [Hgt|_].
  { exfalso. apply (Qlt_not_le _ _ Hgt H1). }
  destruct (Qlt_le_dec frac 0) as [Hlt|_].
  { exfalso. apply (Qlt_not_le _ _ Hlt H0). }
  pose proof (sample_size_le frac (length df) H0 H1) as Hle.
  destruct random_state as [seed|]; unfold bind, lift, ret, choice; cbn zeta;
    rewrite decide_False by lia.
  - eexists _, w. split; [reflexivity|].
    split_and!; [apply draw_submseteq | by apply draw_length | done].
  - pose proof (draw_submseteq df (sample_size frac (length df)) (numpy_random w)).
    pose proof (draw_length df (sample_size frac (length df)) (numpy_random w) Hle).
    destruct (draw df _ (numpy_random w)) as [rows g'].
    eexists _, _. split; [reflexivity|]. done.
Qed.

(** A fraction above one or below zero is refused. *)
Lemma sample_refuses {I} (frac : Q) (random_state : option Z) (df : Frame I)
    (w : World) :
  (1 < frac)%Q ∨ (frac < 0)%Q →
  sample RandomState frac random_state df w = (Raise ValueError, w).
Proof.
  intros Hout. unfold sample.
  destruct (Qlt_le_dec 1 frac) as [|Hle1]; [done|].
  destruct (Qlt_le_dec frac 0) as [|Hle0]; [done|].
  destruct Hout as [Hgt|Hlt]; exfalso.
  - apply (Qlt_not_le _ _ Hgt Hle1).
  - apply (Qlt_not_le _ _ Hlt Hle0).
Qed.

(** *** Groups *)

Lemma group_keys_spec {I} (data : Frame I) :
  let keys := merge_sort Z.le (unique (col_index data)) in
  NoDup keys ∧ ∀ k, k ∈ keys ↔ k ∈ col_index data.
Proof.
  intros keys. unfold keys. split.
  - rewrite merge_sort_Permutation. apply NoDup_unique.
  - intros k. by rewrite merge_sort_Permutation, elem_of_unique.
Qed.

Lemma concat_groups_nil {I} (ks : list Z) :
  concat ((λ k, filter (λ p : I * Row, index p.2 = k) []) <$> ks) = [].
Proof. induction ks as [|k ks IH]; [done|]. by rewrite fmap_cons. Qed.

Lemma concat_groups_cons {I} (p : I * Row) (data : Frame I) (ks : list Z) :
  NoDup ks →
  concat ((λ k, filter (λ q : I * Row, index q.2 = k) (p :: data)) <$> ks)
  ≡ₚ (if decide (index p.2 ∈ ks) then [p] else [])
     ++ concat ((λ k, filter (λ q : I * Row, index q.2 = k) data) <$> ks).
Proof.
  induction 1 as [|k ks Hk Hnd IH]; [done|].
  rewrite !fmap_cons. cbn [concat]. rewrite IH, filter_cons.
  destruct (decide (index p.2 = k)) as [<-|Hne].
  - rewrite (decide_False (P := index p.2 ∈ ks)) by done.
    by rewrite decide_True by left.
  - destruct (decide (index p.2 ∈ ks)) as [Hin|Hnin].
    + rewrite decide_True by (by right). apply Permutation_app_swap_app.
    + rewrite decide_False; [done|].
      intros [?|?]%elem_of_cons; done.
Qed.

Lemma concat_groups_Permutation {I} (data : Frame I) (ks : list Z) :
  NoDup ks → (∀ p, p ∈ data → index p.2 ∈ ks) →
  concat ((λ k, filter (λ q : I * Row, index q.2 = k) data) <$> ks) ≡ₚ data.
Proof.
  intros Hnd. induction data as [|p data IH]; intros Hks.
  - by rewrite concat_groups_nil.
  - rewrite concat_groups_cons by done.
    rewrite decide_True by (apply Hks; left).
    rewrite IH; [done|]. intros q Hq. apply Hks. by right.
Qed.

Lemma count_label_app {I} (v : Z) (l k : Frame I) :
  count_label v (l ++ k) = (count_label v l + count_label v k)%nat.
Proof. unfold count_label. by rewrite filter_app, length_app. Qed.

Lemma count_label_all {I} (v : Z) (l : Frame I) :
  (∀ p, p ∈ l → index p.2 = v) → count_label v l = length l.
Proof.
  intros Hall. unfold count_label.
  induction l as [|p l IH]; [done|].
  rewrite filter_cons, decide_True by (apply Hall; left).
  cbn [length]. rewrite IH; [done|]. intros q Hq. apply Hall. by right.
Qed.

Lemma count_label_none {I} (v : Z) (l : Frame I) :
  (∀ p, p ∈ l → index p.2 ≠ v) → count_label v l = 0%nat.
Proof.
  intros Hall. unfold count_label.
  induction l as [|p l IH]; [done|].
  rewrite filter_cons, decide_False by (apply Hall; left).
  apply IH. intros q Hq. apply Hall. by right.
Qed.

Lemma drawn_per_class_submseteq {I} (frac : Q)
    (groups : list (Z * Frame I)) (parts : list (Frame I)) :
  drawn_per_class frac groups parts → concat parts ⊆+ concat (groups.*2).
Proof.
  induction 1 as [|kg part groups parts [Hsub _] _ IH]; [done|].
  rewrite fmap_cons. cbn [concat]. by apply submseteq_app.
Qed.

Lemma drawn_per_class_count {I} (frac : Q) (data : Frame I) (ks : list Z)
    (parts : list (Frame I)) (v : Z) :
  NoDup ks →
  drawn_per_class frac
    ((λ k, (k, filter (λ p : I * Row, index p.2 = k) data)) <$> ks) parts →
  count_label v (concat parts)
  = if decide (v ∈ ks) then sample_size frac (count_label v data) else 0%nat.
Proof.
  intros Hnd. revert parts.
  induction Hnd as [|k ks Hk Hnd IH]; intros parts Hdrawn.
  - apply Forall2_nil_inv_l in Hdrawn as ->. done.
  - rewrite fmap_cons in Hdrawn.
    apply Forall2_cons_inv_l in Hdrawn as (part & parts' & [Hsub Hlen] & Hrest & ->).
    cbn [concat]. rewrite count_label_app, (IH _ Hrest).
    cbn [snd] in *.
    assert (Hin : ∀ p, p ∈ part → index p.2 = k).
    { intros p Hp. eapply elem_of_submseteq in Hp; [|exact Hsub].
      by apply list_elem_of_filter in Hp as [? _]. }
    destruct (decide (v = k)) as [->|Hne].
    + rewrite (decide_False (P := k ∈ ks)) by done.
      rewrite decide_True by left.
      rewrite count_label_all by done. rewrite Hlen. unfold count_label. lia.
    + rewrite count_label_none by (intros p Hp; rewrite (Hin p Hp); done).
      destruct (decide (v ∈ ks)).
      * by rewrite decide_True by (by right).
      * rewrite decide_False; [done|]. intros [?|?]%elem_of_cons; done.
Qed.

Lemma bind_Ok {A B} (m : M A) (k : A → M B) (w w' : World) (a : A) :
  m w = (Ok a, w') → bind m k w = k a w'.
Proof. intros Hm. unfold bind. by rewrite Hm. Qed.

Lemma bind_Raise {A B} (m : M A) (k : A → M B) (w w' : World) (e : Exn) :
  m w = (Raise e, w') → bind m k w = (Raise e, w').
Proof. intros Hm. unfold bind. by rewrite Hm. Qed.

Lemma groupby_apply_spec {I} (frac : Q) (groups : list (Z * Frame I))
    (w : World) :
  (0 <= frac)%Q → (frac <= 1)%Q →
  ∃ samples parts w',
    groupby_apply (sample RandomState frac None) groups w = (Ok samples, w') ∧
    (λ p, (p.1.2, p.2)) <$> samples = concat parts ∧
    drawn_per_class frac groups parts ∧
    events w' = events w.
Proof.
  intros H0 H1. revert w.
  induction groups as [|kg groups IH]; intros w.
  - exists [], [], w. split_and!; [done | done | constructor | done].
  - destruct (sample_spec frac None kg.2 w H0 H1)
      as (part & w1 & Hpart & Hsub & Hlen & Hev1).
    destruct (IH w1) as (samples & parts & w2 & Hrest & Hcat & Hdrawn & Hev2).
    eexists _, (part :: parts), w2. cbn [groupby_apply].
    rewrite (bind_Ok _ _ _ _ _ Hpart), (bind_Ok _ _ _ _ _ Hrest).
    split; [reflexivity|]. split_and!.
    + rewrite fmap_app, <- list_fmap_compose, Hcat. cbn [concat]. f_equal.
      rewrite <- (list_fmap_id part) at 2. apply list_fmap_ext.
      by intros ? [??].
    + by constructor.
    + congruence.
Qed.

Lemma bootstrap_spec (data : DataFrame) (fraction : Q) (w : World) :
  data ≠ [] → (0 <= fraction)%Q → (fraction <= 1)%Q →
  ∃ samples w',
    bootstrap RandomState data fraction w = (Ok samples, w') ∧
    samples ⊆+ data ∧
    (∀ p, p ∈ samples → p ∈ data) ∧
    (∀ v, count_label v samples = sample_size fraction (count_label v data)) ∧
    events w' = events w.
Proof.
  intros Hne H0 H1. unfold bootstrap, groupby_index.
  destruct (group_keys_spec data) as [Hnd Hkeys].
  set (keys := merge_sort Z.le (unique (col_index data))) in *.
  set (groups := _ <$> keys).
  destruct (groupby_apply_spec fraction groups w H0 H1)
    as (samples & parts & w' & Happly & Hcat & Hdrawn & Hev).
  rewrite (bind_Ok _ _ _ _ _ Happly).
  assert (groups ≠ []) as Hgroups.
  { destruct data as [|p data]; [done|].
    assert (index p.2 ∈ keys) as Hin by (apply Hkeys, elem_of_col_index; exists p; split; [left|done]).
    unfold groups. destruct keys; [by apply elem_of_nil in Hin | done]. }
  unfold get_level_values_1. destruct groups as [|g0 groups'] eqn:Hg; [done|].
  rewrite <- Hg in *. unfold ret. rewrite Hcat.
  assert (Hsub : concat parts ⊆+ data).
  { etransitivity; [by apply (drawn_per_class_submseteq fraction groups)|].
    apply Permutation_submseteq. unfold groups.
    rewrite <- list_fmap_compose.
    apply concat_groups_Permutation; [done|].
    intros p Hp. apply Hkeys, elem_of_col_index. eauto. }
  eexists _, w'. split; [reflexivity|]. split_and!; [done | | | done].
  - intros p Hp. by eapply elem_of_submseteq.
  - intros v. rewrite (drawn_per_class_count fraction data keys parts v Hnd Hdrawn).
    destruct (decide (v ∈ keys)) as [|Hnin]; [done|].
    rewrite count_label_none, sample_size_0; [done|].
    intros p Hp Hv. apply Hnin, Hkeys, elem_of_col_index. eauto.
Qed.


(** Applied to a frame without rows, [bootstrap] raises: there is no group,
    so the sampled frame has no second index level. *)
Lemma bootstrap_empty (fraction : Q) (w : World) :
  bootstrap RandomState [] fraction w = (Raise IndexError, w).
Proof. done. Qed.

(** *** Differences by [concat] and [drop_duplicates(keep=False)] *)

Lemma filter_none {A} (P : A → Prop) `{∀ x, Decision (P x)} (l : list A) :
  (∀ x, x ∈ l → ¬ P x) → filter P l = [].
Proof.
  induction l as [|a l IH]; intros Hall; [done|].
  rewrite filter_cons, decide_False by (apply Hall; left).
  apply IH. intros x Hx. apply Hall. by right.
Qed.

Lemma count_row_app {I} (r : Row) (l k : Frame I) :
  count_row r (l ++ k) = (count_row r l + count_row r k)%nat.
Proof. unfold count_row. by rewrite filter_app, length_app. Qed.

Lemma count_row_pos {I} (r : Row) (l : Frame I) :
  r ∈ l.*2 → (0 < count_row r l)%nat.
Proof.
  intros (p & -> & Hp)%list_elem_of_fmap. unfold count_row.
  assert (p ∈ filter (λ q : I * Row, q.2 = p.2) l) as Hin
    by (by apply list_elem_of_filter).
  destruct (filter _ l); [by apply elem_of_nil in Hin | simpl; lia].
Qed.

Lemma count_row_zero {I} (r : Row) (l : Frame I) :
  r ∉ l.*2 → count_row r l = 0%nat.
Proof.
  intros Hr. unfold count_row. rewrite filter_none; [done|].
  intros p Hp <-. apply Hr, list_elem_of_fmap. eauto.
Qed.

Lemma count_row_NoDup {I} (p : I * Row) (l : Frame I) :
  NoDup (l.*2) → p ∈ l → count_row p.2 l = 1%nat.
Proof.
  induction l as [|q l IH]; intros Hnd Hp; [by apply elem_of_nil in Hp|].
  rewrite fmap_cons in Hnd. apply NoDup_cons in Hnd as [Hq Hnd].
  change (q :: l) with ([q] ++ l). rewrite count_row_app.
  apply elem_of_cons in Hp as [->|Hp].
  - rewrite (count_row_zero _ l) by done.
    unfold count_row. by rewrite filter_cons, decide_True.
  - rewrite IH by done.
    unfold count_row. rewrite filter_cons, decide_False; [done|].
    intros Heq. apply Hq. rewrite Heq. apply list_elem_of_fmap. eauto.
Qed.

Lemma submseteq_NoDup {A} (l k : list A) : l ⊆+ k → NoDup k → NoDup l.
Proof.
  intros [k' Hk']%submseteq_Permutation Hnd. rewrite Hk' in Hnd.
  by apply NoDup_app in Hnd as [? _].
Qed.

(** Concatenating a selection [a] of the rows of a frame [b] without
    repeated rows and dropping everything that then occurs twice leaves the
    rows of [b] that are not in [a], in the order of [b]. *)
Lemma keep_false_difference {I} (a b : Frame I) :
  a ⊆+ b → NoDup (b.*2) →
  drop_duplicates_keep_false (a ++ b) = filter (λ p, p.2 ∉ a.*2) b.
Proof.
  intros Hsub Hnd. unfold drop_duplicates_keep_false.
  rewrite filter_app, filter_none.
  - apply filter_ext_in. intros p Hp.
    rewrite count_row_app, (count_row_NoDup p b) by done. split.
    + intros Hcount Hin%count_row_pos. lia.
    + intros Hnin. rewrite count_row_zero by done. lia.
  - intros p Hp. rewrite count_row_app.
    assert (0 < count_row p.2 a)%nat
      by (apply count_row_pos, list_elem_of_fmap; eauto).
    assert (0 < count_row p.2 b)%nat.
    { apply count_row_pos, list_elem_of_fmap. exists p. split; [done|].
      by eapply elem_of_submseteq. }
    lia.
Qed.

Lemma difference_Permutation {I} (a b : Frame I) :
  a ⊆+ b → NoDup (b.*2) → a ++ filter (λ p, p.2 ∉ a.*2) b ≡ₚ b.
Proof.
  intros Hsub Hnd.
  assert (NoDup b) as Hndb by (by eapply NoDup_fmap_1).
  etransitivity; [|apply (filter_app_complement (λ p, p.2 ∈ a.*2) b)].
  apply Permutation_app; [|done].
  apply NoDup_Permutation.
  - by eapply submseteq_NoDup.
  - by apply NoDup_filter.
  - intros p. rewrite list_elem_of_filter. split.
    + intros Hp. split; [apply list_elem_of_fmap; eauto|].
      by eapply elem_of_submseteq.
    + intros [(q & Heq & Hq)%list_elem_of_fmap Hp].
      assert (q ∈ b) as Hqb by (by eapply elem_of_submseteq).
      assert (p = q) as ->; [|done].
      apply list_elem_of_lookup in Hp as [i Hi].
      apply list_elem_of_lookup in Hqb as [j Hj].
      assert (i = j) as ->; [|congruence].
      apply (NoDup_lookup (b.*2) i j p.2 Hnd); rewrite list_lookup_fmap;
        [by rewrite Hi | rewrite Hj; simpl; by rewrite Heq].
Qed.


(** A run of [output_split] on a frame with rows and a fraction between
    zero and one. *)
Lemma output_split_spec (df : DataFrame) (fraction : Q) (w : World) :
  df ≠ [] → (0 <= fraction)%Q → (fraction <= 1)%Q →
  ∃ df_train df_val w',
    let df_remain := drop_duplicates_keep_false (df_train ++ df) in
    let df_test := drop_duplicates_keep_false (df_val ++ df_remain) in
    output_split RandomState df fraction w
    = (Ok (df_train, df_val, df_test), w') ∧
    df_train ⊆+ df ∧
    (∀ v, count_label v df_train
          = sample_size fraction (count_label v df)) ∧
    df_val ⊆+ df_remain ∧
    length df_val = sample_size (1 # 2) (length df_remain) ∧
    events w'
    = events w ++ [EPrintCount "訓練樣本數：" (length df_train);
                   EPrintCount "validation樣本數：" (length df_val);
                   EPrintCount "預測樣本數：" (length df_test)].
Proof.
  intros Hne H0 H1. unfold output_split.
  destruct (bootstrap_spec df fraction w Hne H0 H1)
    as (train & w1 & Hboot & Hsub & _ & Hcount & Hev1).
  rewrite (bind_Ok _ _ _ _ _ Hboot).
  destruct (sample_spec (1 # 2) (Some 5)
              (drop_duplicates_keep_false (train ++ df)) w1) as
    (val & w2 & Hval & Hsubv & Hlenv & Hev2); [done..|].
  rewrite (bind_Ok _ _ _ _ _ Hval).
  unfold bind, emit, ret. cbn.
  eexists train, val, _. split; [reflexivity|]. cbn.
  split_and!; [done..|].
  rewrite Hev2, Hev1, <- !app_assoc. done.
Qed.


(** With a fraction outside of zero to one the first class sampled is
    refused, and with it the whole split. *)
Lemma bootstrap_refuses (data : DataFrame) (fraction : Q) (w : World) :
  data ≠ [] → (1 < fraction)%Q ∨ (fraction < 0)%Q →
  bootstrap RandomState data fraction w = (Raise ValueError, w).
Proof.
  intros Hne Hout. unfold bootstrap, groupby_index.
  destruct (group_keys_spec data) as [_ Hkeys].
  set (keys := merge_sort Z.le (unique (col_index data))) in *.
  destruct keys as [|k keys].
  - destruct data as [|p data]; [done|]. exfalso.
    eapply elem_of_nil, Hkeys, elem_of_col_index. exists p. split; [left|done].
  - rewrite fmap_cons. cbn [groupby_apply].
    erewrite bind_Raise; [done|].
    erewrite bind_Raise; [done|]. by apply sample_refuses.
Qed.

End Split.

(** ** The driver *)

Lemma post_ret {A} (a : A) (w : World) (Q : result A → Prop) :
  Q (Ok a) → post (ret a) w Q.
Proof. intros HQ. exists []. by rewrite app_nil_r. Qed.

Lemma post_raise {A} (e : Exn) (w : World) (Q : result A → Prop) :
  Q (Raise e) → post (raise e) w Q.
Proof. intros HQ. exists []. by rewrite app_nil_r. Qed.

Lemma post_lift {A} (r : result A) (w : World) (Q : result A → Prop) :
  Q r → post (lift r) w Q.
Proof. intros HQ. exists []. by rewrite app_nil_r. Qed.

Lemma post_emit (ev : Event) (w : World) (Q : result unit → Prop) :
  no_output ev → Q (Ok tt) → post (emit ev) w Q.
Proof. intros Hev HQ. exists [ev]. split_and!; [done | by constructor | done]. Qed.

Lemma post_bind {A B} (m : M A) (k : A → M B) (w : World)
    (Qm : result A → Prop) (Q : result B → Prop) :
  post m w Qm →
  (∀ a w1, Qm (Ok a) → post (k a) w1 Q) →
  (∀ e, Qm (Raise e) → Q (Raise e)) →
  post (bind m k) w Q.
Proof.
  intros (new1 & Hev1 & Hq1 & Hm) Hk He. unfold post, bind.
  destruct (m w) as [[a|e] w1]; cbn [fst snd] in *.
  - destruct (Hk a w1 Hm) as (new2 & Hev2 & Hq2 & HQ).
    exists (new1 ++ new2). split_and!; [|by apply Forall_app|done].
    by rewrite Hev2, Hev1, app_assoc.
  - exists new1. split_and!; [done..|]. by apply He.
Qed.

Lemma post_load_global (name : string) (w : World) (Q : result unit → Prop) :
  name ∈ module_globals ++ builtins → Q (Ok tt) → post (load_global name) w Q.
Proof.
  intros Hin HQ. unfold load_global. rewrite decide_True by done.
  by apply post_ret.
Qed.

Lemma load_global_unbound (name : string) (w : World) :
  name ∉ module_globals ++ builtins →
  load_global name w = (Raise (NameError name), w).
Proof. intros Hnin. unfold load_global. by rewrite decide_False. Qed.

Lemma call_global_unbound (name : string) (w : World) :
  name ∉ module_globals ++ builtins →
  call_global name w = (Raise (NameError name), w).
Proof.
  intros Hnin. unfold call_global.
  by rewrite (bind_Raise _ _ _ _ _ (load_global_unbound name w Hnin)).
Qed.

Lemma predict_unbound : "predict" ∉ module_globals ++ builtins.
Proof. compute_done. Qed.

Lemma train_unbound : "train" ∉ module_globals ++ builtins.
Proof. compute_done. Qed.

Lemma save_model_unbound : "save_model" ∉ module_globals ++ builtins.
Proof. compute_done. Qed.

Lemma model_prediction_missing (args : Namespace) (w : World) :
  getattr args "model_prediction" w
  = (Raise (AttributeError "model_prediction"), w).
Proof. done. Qed.

Lemma reindex_own_mapping {I} (df : Frame I) :
  ∃ df', reindex df (create_label2index df) = Ok df' ∧ length df' = length df.
Proof.
  eexists. split.
  - apply reindex_Ok. intros p Hp.
    apply create_label2index_dom, elem_of_col_index. eauto.
  - by rewrite length_fmap.
Qed.

Lemma post_of_eq {A} (m : M A) (w : World) (r : result A)
    (Q : result A → Prop) :
  m w = (r, w) → Q r → post m w Q.
Proof. intros Hm HQ. exists []. rewrite Hm. by rewrite app_nil_r. Qed.

Lemma post_seq_global {A} (name : string) (m : M A) (w : World)
    (Q : result A → Prop) :
  name ∈ module_globals ++ builtins →
  (∀ w1, post m w1 Q) → post (load_global name ;;; m) w Q.
Proof.
  intros Hin Hm. apply (post_bind _ _ _ (λ r, r = Ok tt)).
  - by apply post_load_global.
  - intros _ w1 _. apply Hm.
  - done.
Qed.

Lemma DataLoader_init_post (ds : OnlineQueryDataset) (bs : Z) (sh : bool)
    (w : World) :
  post (DataLoader_init ds bs sh) w
    (λ r, r = if decide (bs ≤ 0) then Raise ValueError
              else Ok (mkDataLoader ds bs sh)).
Proof.
  unfold DataLoader_init. destruct (decide (bs ≤ 0)).
  - by apply post_raise.
  - by apply post_ret.
Qed.

Section Driver.

Variable RandomState : Z → rng.
Variable read_csv : string → string → result DataFrame.
Variable from_pretrained : string → result Tokenizer.
Variable path_exists : string → bool.

Lemma read_online_query_post (path : string) (w : World) :
  post (read_online_query read_csv path) w (λ r, r = read_csv path ",").
Proof.
  unfold read_online_query. apply (post_bind _ _ _ (λ r, r = Ok tt)).
  - by apply post_emit.
  - intros _ w1 _. by apply post_lift.
  - done.
Qed.

Lemma OnlineQueryDataset_init_post (mode : string) (df : DataFrame)
    (tk : Tokenizer) (w : World) :
  mode ∈ ["train"; "val"; "test"] →
  post (OnlineQueryDataset_init read_csv mode df tk None) w
    (λ r, r = Ok (mkDataset mode df (length df) tk)).
Proof.
  intros Hmode. unfold OnlineQueryDataset_init. rewrite decide_True by done.
  by apply (post_of_eq _ _ (Ok (mkDataset mode df (length df) tk))).
Qed.

Lemma output_split_post (df : DataFrame) (fraction : Q) (w : World) :
  (0 <= fraction)%Q → (fraction <= 1)%Q →
  post (output_split RandomState df fraction) w
    (λ r, match df with
          | [] => r = Raise IndexError
          | _ => ∃ split, r = Ok split
          end).
Proof.
  intros H0 H1. destruct df as [|p df].
  - by apply (post_of_eq _ _ (Raise IndexError)).
  - destruct (output_split_spec RandomState (p :: df) fraction w)
      as (train & val & w' & Hrun & _ & _ & _ & _ & Hev); [done..|].
    cbn zeta in *. eexists. rewrite Hrun. cbn [fst snd].
    split_and!; [exact Hev | | eauto].
    by repeat constructor.
Qed.

Lemma main_train_path (args : Namespace) (w : World) :
  do_test args = false →
  post (main RandomState read_csv from_pretrained path_exists args) w
    (λ r, r = Raise (main_error read_csv from_pretrained args)).
Proof.
  intros Hdt. unfold main. rewrite Hdt. rewrite decide_False by done.
  set (err := main_error read_csv from_pretrained args).
  assert (Hdef : main_error read_csv from_pretrained args = err) by done.
  unfold main_error in Hdef. rewrite Hdt in Hdef. clearbody err.
  assert (Herr : ∀ e, e = err → Raise e = Raise err :> result unit)
    by (by intros e ->).
  (* reading the data file *)
  apply (post_bind _ _ _ (λ r, r = read_csv (data_path args) ","));
    [apply post_seq_global; [compute_done|intros; apply read_online_query_post]
    | intros raw w1 Hraw
    | intros e He; apply Herr; by rewrite <- He in Hdef].
  rewrite <- Hraw in Hdef.
  (* preprocessing and label mapping *)
  apply (post_bind _ _ _ (λ r, r = Ok (preprocessing raw (min_each_group args) (maxlength args))));
    [apply post_seq_global; [compute_done|intros; by apply post_ret]
    | intros df w2 [= ->]
    | done].
  set (df := preprocessing raw _ _) in *.
  apply (post_bind _ _ _ (λ r, r = Ok (create_label2index df)));
    [apply post_seq_global; [compute_done|intros; by apply post_ret]
    | intros l2i w3 [= ->]
    | done].
  destruct (reindex_own_mapping df) as (df' & Hre & Hlen).
  apply (post_bind _ _ _ (λ r, r = Ok df'));
    [apply post_seq_global; [compute_done|intros; by apply post_lift]
    | intros ? w4 [= ->]
    | done].
  apply (post_bind _ _ _ (λ r, r = Ok (get_num_labels df')));
    [apply post_seq_global; [compute_done|intros; by apply post_ret]
    | intros num_labels w5 [= ->]
    | done].
  (* the split *)
  eapply post_bind;
    [apply post_seq_global; [compute_done|intros; by apply output_split_post]
    | intros split w6 Hsplit
    | intros e He; apply Herr].
  2: { destruct df' as [|p' df'']; [|by destruct He].
       injection He as ->. by destruct df. }
  assert (df ≠ []) as Hdf by (intros Heq; rewrite Heq in Hlen; by destruct df').
  destruct df as [|p0 df0] eqn:Hdfeq; [done|].
  cbn zeta.
  (* the tokenizer *)
  apply (post_bind _ _ _ (λ r, r = from_pretrained "bert-base-chinese"));
    [apply post_seq_global; [compute_done|intros w'];
       apply (post_bind _ _ _ (λ r, r = Ok tt));
       [by apply post_emit | intros; by apply post_lift | done]
    | intros tk w7 Htk
    | intros e He; apply Herr; by rewrite <- He in Hdef].
  rewrite <- Htk in Hdef.
  apply (post_bind _ _ _ (λ r, r = Ok tt));
    [apply post_seq_global; [compute_done|intros; by apply post_emit]
    | intros _ w8 _
    | done].
  (* datasets *)
  eapply post_bind;
    [apply post_seq_global; [compute_done|intros; apply OnlineQueryDataset_init_post; compute_done]
    | intros trainset w9 [= ->]
    | done].
  eapply post_bind;
    [apply post_seq_global; [compute_done|intros; apply OnlineQueryDataset_init_post; compute_done]
    | intros valset w10 [= ->]
    | done].
  eapply post_bind;
    [apply post_seq_global; [compute_done|intros; apply OnlineQueryDataset_init_post; compute_done]
    | intros testset w11 [= ->]
    | done].
  (* loaders *)
  eapply post_bind;
    [apply post_seq_global; [compute_done|intros; apply DataLoader_init_post]
    | intros trainloader w12 Hl1
    | intros e He; apply Herr].
  2: { destruct (decide (batch_size args ≤ 0)); [by injection He as ->|done]. }
  destruct (decide (batch_size args ≤ 0)) as [|Hbs]; [done|].
  eapply post_bind;
    [apply post_seq_global; [compute_done|intros; apply DataLoader_init_post]
    | intros valloader w13 Hl2
    | intros e He; by rewrite decide_False in He].
  eapply post_bind;
    [apply post_seq_global; [compute_done|intros; apply DataLoader_init_post]
    | intros testloader w14 Hl3
    | intros e He; by rewrite decide_False in He].
  (* training *)
  apply (post_of_eq _ _ (Raise (NameError "train"))); [|by apply Herr].
  apply bind_Raise, call_global_unbound, train_unbound.
Qed.

Lemma main_test_path (args : Namespace) (w : World) :
  do_test args = true →
  truthy (of_optional_str (model_start args)) = true →
  main RandomState read_csv from_pretrained path_exists args w
  = (Raise (NameError "predict"), w).
Proof.
  intros Hdt Hms. unfold main. rewrite Hdt, Hms. cbn [negb].
  rewrite decide_True by done.
  apply bind_Raise, call_global_unbound, predict_unbound.
Qed.

(** C8. In test mode without a starting model, [main] prints the message
    and returns: the message is the only thing that happens (no file is
    read, nothing is trained or written), and the random generator is left
    as it was. *)
Theorem main_test_mode_without_model (args : Namespace) (w : World) :
  do_test args = true → model_start args = None →
  main RandomState read_csv from_pretrained path_exists args w
  = (Ok tt,
     mkWorld
       (events w
        ++ [EPrint "In test mode, you should provide the model to evaluate."])
       (numpy_random w)).
Proof.
  intros Hdt Hms. unfold main. rewrite Hdt, Hms. by rewrite decide_True.
Qed.


End Driver.

(** * The theorems at concrete inputs *)

Lemma Q_7_10_bounds : (0 <= 7 # 10)%Q ∧ (7 # 10 <= 1)%Q.
Proof. unfold Qle; cbn; lia. Defined.






Lemma example_batch_stackable : labels_stackable example_batch.
Proof. intros s0 _ _. repeat constructor; by eexists. Defined.



Lemma create_mini_batch_mask_witness :
  example_batch ≠ [] ∧
  ∃ batch, create_mini_batch example_batch = Ok batch.
Proof.
  assert (Hne : example_batch ≠ []) by done.
  split; [done|].
  exact (proj1 (create_mini_batch_mask example_batch Hne)
           example_batch_stackable).
Defined.

(** C3 fails as stated: a token whose id is [0] is one of the sample's own
    tokens, yet the mask holds [0] at its position. *)
Lemma create_mini_batch_mask_zero_id :
  batch_with_zero_id ≠ [] ∧
  create_mini_batch batch_with_zero_id
  = Ok ([[101; 0; 102]], [[1; 1; 1]], [[1; 0; 1]], None) ∧
  batch_with_zero_id !! 0%nat = Some sample_with_zero_id ∧
  (1 < length (tokens_of sample_with_zero_id))%nat ∧
  [[1; 0; 1]] !! 0%nat ≫= (.!! 1%nat) = Some 0.
Proof. split_and!; [done | done | done | cbn; lia | done]. Qed.

Lemma main_test_mode_without_model_witness :
  do_test example_test_args = true ∧ model_start example_test_args = None ∧
  main example_RandomState example_file example_pretrained no_path
    example_test_args example_world
  = (Ok tt,
     mkWorld
       [EPrint "In test mode, you should provide the model to evaluate."]
       [2; 7; 1; 8]%nat).
Proof.
  split_and!; [done..|].
  exact (main_test_mode_without_model example_RandomState example_file
           example_pretrained no_path example_test_args example_world
           eq_refl eq_refl).
Defined.




(** * Further properties of the filtering and reindexing functions *)

Lemma filter_toofew_toolong_unfold
    (df : DataFrame) (min_each_group max_length : Z) :
  filter_toofew_toolong df min_each_group max_length
  = filter (λ p, min_each_group
                 ≤ Z.of_nat (count_label (index p.2)
                     (filter (λ p, len (question p.2) ≤ max_length) df)))
      (filter (λ p, len (question p.2) ≤ max_length) df).
Proof.
  unfold filter_toofew_toolong.
  set (kept := filter (λ p : nat * Row, len (question p.2) ≤ max_length) df).
  assert (filter (λ p : nat * Row, ¬ len (question p.2) > max_length) df = kept)
    as -> by (apply filter_ext_in; intros; lia).
  rewrite zip_fst_snd. apply filter_ext_in. intros p Hp.
  rewrite list_elem_of_bind. split.
  - intros ([v c] & Hy & Hvc); simpl in *.
    destruct (decide (Z.of_nat c >= min_each_group)); [|by apply elem_of_nil in Hy].
    apply list_elem_of_singleton in Hy as ->.
    apply elem_of_value_counts in Hvc as [_ ->]. lia.
  - intros Hge. exists (index p.2, count_label (index p.2) kept). split.
    + simpl. rewrite decide_True by lia. by left.
    + apply elem_of_value_counts. split; [|done].
      apply elem_of_col_index. eauto.
Qed.

(** Selecting rows by a condition on their label keeps a class whole or
    drops it whole. *)
Lemma count_label_filter_by_label {I} (f : Z → Prop) `{∀ v, Decision (f v)}
    (v : Z) (df : Frame I) :
  count_label v (filter (λ p, f (index p.2)) df)
  = if decide (f v) then count_label v df else 0%nat.
Proof.
  unfold count_label. rewrite list_filter_filter.
  destruct (decide (f v)) as [Hv|Hv].
  - f_equal. apply filter_ext_in. intros p _. split; [tauto|].
    intros Heq. split; [done|]. by rewrite Heq.
  - rewrite filter_none; [done|]. intros p _ [Heq Hf]. by rewrite Heq in Hf.
Qed.

Lemma filter_all {A} (P : A → Prop) `{∀ x, Decision (P x)} (l : list A) :
  (∀ x, x ∈ l → P x) → filter P l = l.
Proof.
  induction l as [|a l IH]; intros Hall; [done|].
  rewrite filter_cons, decide_True by (apply Hall; left).
  f_equal. apply IH. intros x Hx. apply Hall. by right.
Qed.

Lemma filter_toofew_toolong_post_aux
    (df : DataFrame) (min_each_group max_length : Z) :
  let out := filter_toofew_toolong df min_each_group max_length in
  sublist out df ∧
  ∀ p, p ∈ out →
    len (question p.2) ≤ max_length ∧
    min_each_group ≤ Z.of_nat (count_label (index p.2) out) ∧
    count_label (index p.2) out
    = count_label (index p.2)
        (filter (λ p, len (question p.2) ≤ max_length) df).
Proof.
  intros out. unfold out. rewrite filter_toofew_toolong_unfold.
  set (kept := filter (λ p : nat * Row, len (question p.2) ≤ max_length) df).
  split.
  - etransitivity; apply sublist_filter.
  - intros p [Hmin Hp]%list_elem_of_filter.
    assert (Hlen : len (question p.2) ≤ max_length)
      by (by apply list_elem_of_filter in Hp as [? _]).
    pose proof (count_label_filter_by_label
                  (λ v, min_each_group ≤ Z.of_nat (count_label v kept))
                  (index p.2) kept) as Hc.
    cbv beta in Hc. rewrite decide_True in Hc by done.
    rewrite Hc. by split_and!.
Qed.


Lemma filter_toofew_toolong_idempotent_aux
    (df : DataFrame) (min_each_group max_length : Z) :
  filter_toofew_toolong
    (filter_toofew_toolong df min_each_group max_length)
    min_each_group max_length
  = filter_toofew_toolong df min_each_group max_length.
Proof.
  destruct (filter_toofew_toolong_post_aux df min_each_group max_length)
    as [_ Hpost].
  set (out := filter_toofew_toolong df min_each_group max_length) in *.
  rewrite (filter_toofew_toolong_unfold out).
  assert (filter (λ p : nat * Row, len (question p.2) ≤ max_length) out = out)
    as ->.
  { apply filter_all. intros p Hp. by apply Hpost. }
  apply filter_all. intros p Hp. by apply Hpost.
Qed.

(** X2. Filtering a second time with the same bounds changes nothing. *)
Theorem filter_toofew_toolong_idempotent
    (df : DataFrame) (min_each_group max_length : Z) :
  filter_toofew_toolong
    (filter_toofew_toolong df min_each_group max_length)
    min_each_group max_length
  = filter_toofew_toolong df min_each_group max_length.
Proof. apply filter_toofew_toolong_idempotent_aux. Qed.

Lemma drop_duplicates_sublist {I} (df : Frame I) :
  sublist (drop_duplicates df) df.
Proof.
  induction df as [|p df IH]; [done|]. cbn [drop_duplicates].
  apply sublist_skip. etransitivity; [apply sublist_filter|done].
Qed.

Lemma drop_duplicates_NoDup {I} (df : Frame I) :
  NoDup ((drop_duplicates df).*2).
Proof.
  induction df as [|p df IH]; [constructor|]. cbn [drop_duplicates].
  rewrite fmap_cons. constructor.
  - intros (q & Heq & [Hne _]%list_elem_of_filter)%list_elem_of_fmap.
    by apply Hne.
  - eapply submseteq_NoDup; [|exact IH].
    apply fmap_submseteq, sublist_submseteq, sublist_filter.
Qed.

Lemma drop_duplicates_values {I} (df : Frame I) (r : Row) :
  r ∈ (drop_duplicates df).*2 ↔ r ∈ df.*2.
Proof.
  induction df as [|p df IH]; [done|]. cbn [drop_duplicates].
  rewrite !fmap_cons, !elem_of_cons, <- IH, !list_elem_of_fmap.
  split.
  - intros [->|(q & -> & [_ Hq]%list_elem_of_filter)]; [by left|].
    right. by exists q.
  - intros [->|(q & -> & Hq)]; [by left|].
    destruct (decide (q.2 = p.2)) as [Heq|Hne]; [by left|].
    right. exists q. split; [done|]. by apply list_elem_of_filter.
Qed.

Lemma drop_duplicates_id {I} (df : Frame I) :
  NoDup (df.*2) → drop_duplicates df = df.
Proof.
  induction df as [|p df IH]; intros Hnd; [done|].
  rewrite fmap_cons in Hnd. apply NoDup_cons in Hnd as [Hp Hnd].
  cbn [drop_duplicates]. rewrite (IH Hnd). f_equal.
  apply filter_all. intros q Hq Heq. apply Hp. rewrite <- Heq.
  apply list_elem_of_fmap. by exists q.
Qed.

Lemma sublist_values_NoDup {I} (l k : Frame I) :
  sublist l k → NoDup (k.*2) → NoDup (l.*2).
Proof.
  intros Hsub. apply submseteq_NoDup.
  by apply fmap_submseteq, sublist_submseteq.
Qed.

Lemma preprocessing_post_aux (df : DataFrame) (mineachgroup maxlength : Z) :
  let out := preprocessing df mineachgroup maxlength in
  sublist out df ∧
  NoDup (out.*2) ∧
  (∀ p, p ∈ out →
     len (question p.2) ≤ maxlength ∧
     mineachgroup ≤ Z.of_nat (count_label (index p.2) out)) ∧
  preprocessing out mineachgroup maxlength = out.
Proof.
  intros out. unfold out, preprocessing.
  destruct (filter_toofew_toolong_post_aux (drop_duplicates df)
              mineachgroup maxlength) as [Hsub Hpost].
  set (res := filter_toofew_toolong (drop_duplicates df) _ _) in *.
  assert (Hnd : NoDup (res.*2)).
  { eapply sublist_values_NoDup; [exact Hsub|apply drop_duplicates_NoDup]. }
  split_and!.
  - etransitivity; [exact Hsub|apply drop_duplicates_sublist].
  - done.
  - intros p Hp. destruct (Hpost p Hp) as (? & ? & _). by split.
  - rewrite (drop_duplicates_id res Hnd). unfold res.
    apply filter_toofew_toolong_idempotent_aux.
Qed.


(** X4. [reindex] raises exactly when some row's label is not a key of the
    mapping, and the exception is then [KeyError]. *)
Theorem reindex_KeyError {I} (df : Frame I) (label2index : gmap Z nat) :
  (reindex df label2index = Raise KeyError
   ↔ ∃ p, p ∈ df ∧ label2index !! index p.2 = None) ∧
  (∀ e, reindex df label2index = Raise e → e = KeyError).
Proof.
  unfold reindex. induction df as [|p df [IH1 IH2]].
  - split; [|done]. split; [done|]. by intros (p & Hp%elem_of_nil & _).
  - cbn [rmapM]. unfold getindex4label at 1 3.
    destruct (label2index !! index p.2) as [i|] eqn:Hi; cbn [rbind].
    + destruct (rmapM _ df) as [df'|e] eqn:Hdf; cbn [rbind].
      * split; [|done]. split; [done|].
        intros (q & [->|Hq]%elem_of_cons & Hnone); [congruence|].
        assert (Ok df' = Raise KeyError :> result (Frame I)); [|done].
        apply IH1. eauto.
      * split.
        -- split.
           ++ intros [= ->]. destruct (proj1 IH1 eq_refl) as (q & Hq & Hnone).
              exists q. split; [by right|done].
           ++ intros _. f_equal. by apply IH2.
        -- intros e' [= <-]. by apply IH2.
    + split; [|by intros e [= <-]]. split; [|done].
      intros _. exists p. split; [by left|done].
Qed.

Lemma label_code_lookup {I} (df : Frame I) (i : nat) (v : Z) :
  unique (col_index df) !! i = Some v →
  label_code (create_label2index df) v = Z.of_nat i.
Proof.
  intros Hi%create_label2index_lookup. unfold label_code. by rewrite Hi.
Qed.

Lemma label_code_inj {I} (df : Frame I) (x y : Z) :
  x ∈ col_index df → y ∈ col_index df →
  label_code (create_label2index df) x = label_code (create_label2index df) y →
  x = y.
Proof.
  intros [i Hx]%elem_of_unique%list_elem_of_lookup
         [j Hy]%elem_of_unique%list_elem_of_lookup.
  rewrite (label_code_lookup df i x Hx), (label_code_lookup df j y Hy).
  intros Heq%Nat2Z.inj. subst j. congruence.
Qed.

Lemma reindex_own_mapping_eq {I} (df : Frame I) :
  reindex df (create_label2index df)
  = Ok ((λ p, (p.1, mkRow (label_code (create_label2index df) (index p.2))
                      (question p.2))) <$> df).
Proof.
  apply reindex_Ok. intros p Hp.
  apply create_label2index_dom, elem_of_col_index. eauto.
Qed.

Lemma unique_reindexed {I} (df : Frame I) :
  unique (label_code (create_label2index df) <$> col_index df)
  = Z.of_nat <$> seq 0 (length (unique (col_index df))).
Proof.
  rewrite unique_fmap by apply label_code_inj.
  apply list_eq. intros i. rewrite !list_lookup_fmap.
  destruct (unique (col_index df) !! i) as [v|] eqn:Hi; simpl.
  - rewrite (label_code_lookup df i v Hi).
    rewrite lookup_seq_lt by (by eapply lookup_lt_Some). done.
  - apply lookup_ge_None in Hi. by rewrite lookup_seq_ge.
Qed.

(** X5. Reindexing with the frame's own mapping is stable: in the frame it
    returns the labels are already the indices 0..n-1 in order of first
    appearance, so the mapping built from it sends every index to itself
    and reindexing again returns the same frame. *)
Theorem reindex_twice {I} (df : Frame I) :
  ∃ df',
    reindex df (create_label2index df) = Ok df' ∧
    reindex df' (create_label2index df') = Ok df' ∧
    ∀ i, (i < get_num_labels df)%nat →
      create_label2index df' !! Z.of_nat i = Some i.
Proof.
  eexists. split; [apply reindex_own_mapping_eq|].
  set (code := label_code (create_label2index df)).
  set (df' := _ <$> df).
  assert (Hcol : col_index df' = code <$> col_index df).
  { unfold df', col_index. rewrite <- !list_fmap_compose. by apply list_fmap_ext. }
  assert (Huniq : unique (col_index df')
                  = Z.of_nat <$> seq 0 (length (unique (col_index df))))
    by (rewrite Hcol; apply unique_reindexed).
  assert (Hlookup : ∀ i, (i < length (unique (col_index df)))%nat →
                         create_label2index df' !! Z.of_nat i = Some i).
  { intros i Hi. apply create_label2index_lookup.
    rewrite Huniq, list_lookup_fmap, lookup_seq_lt by done. done. }
  split.
  - rewrite reindex_own_mapping_eq.
    f_equal. rewrite <- (list_fmap_id df') at 2. apply list_fmap_ext.
    intros k [r [l q]] Hk. cbn [fst snd index question id]. do 2 f_equal.
    assert (l ∈ col_index df') as Hl.
    { apply elem_of_col_index. exists (r, mkRow l q).
      split; [by eapply list_elem_of_lookup_2|done]. }
    rewrite <- elem_of_unique, Huniq in Hl.
    apply list_elem_of_fmap in Hl as (i & -> & Hi%elem_of_seq).
    unfold label_code. rewrite Hlookup by lia. done.
  - intros i Hi. apply Hlookup.
    unfold get_num_labels in Hi. by rewrite length_value_counts in Hi.
Qed.

Lemma reindex_NoDup_aux {I} (df : Frame I) :
  ∃ df',
    reindex df (create_label2index df) = Ok df' ∧
    length df' = length df ∧
    (NoDup (df.*2) → NoDup (df'.*2)).
Proof.
  eexists. split; [apply reindex_own_mapping_eq|].
  split; [by rewrite length_fmap|]. intros Hnd.
  rewrite <- list_fmap_compose.
  rewrite (list_fmap_ext _
             ((λ r, mkRow (label_code (create_label2index df) (index r))
                          (question r)) ∘ snd) df) by done.
  rewrite list_fmap_compose. apply NoDup_fmap_2_strong; [|done].
  intros [l1 q1] [l2 q2] H1 H2 [= Hl ->]. f_equal.
  apply (label_code_inj df); [| |done].
  - apply list_elem_of_fmap in H1 as (p & Hp & Hin).
    apply elem_of_col_index. exists p. by rewrite <- Hp.
  - apply list_elem_of_fmap in H2 as (p & Hp & Hin).
    apply elem_of_col_index. exists p. by rewrite <- Hp.
Qed.

(** X6. The frame [main] hands to [output_split], the preprocessed frame
    reindexed with its own mapping, always exists, has as many rows as
    preprocessing kept and no two rows with the same label and question;
    in general reindexing a frame with its own mapping keeps a frame
    without repeated rows free of them. *)
Theorem reindexed_frame_deduplicated
    (raw : DataFrame) (mineachgroup maxlength : Z) :
  let pre := preprocessing raw mineachgroup maxlength in
  (∃ df', reindex pre (create_label2index pre) = Ok df' ∧
          length df' = length pre ∧ NoDup (df'.*2)) ∧
  ∃ df', reindex raw (create_label2index raw) = Ok df' ∧
         (NoDup (raw.*2) → NoDup (df'.*2)).
Proof.
  intros pre. split.
  - destruct (reindex_NoDup_aux pre) as (df' & Hre & Hlen & Hnd).
    exists df'. split_and!; [done..|].
    apply Hnd. apply preprocessing_post_aux.
  - destruct (reindex_NoDup_aux raw) as (df' & Hre & _ & Hnd). eauto.
Qed.

Lemma dict_of_size {K V} `{Countable K} (kvs : list (K * V)) :
  NoDup (kvs.*1) → size (dict_of kvs) = length kvs.
Proof.
  induction kvs as [|[k v] kvs IH] using rev_ind; intros Hnd; [done|].
  rewrite fmap_app in Hnd. apply NoDup_app in Hnd as (Hnd & Hfresh & _).
  rewrite dict_of_snoc, length_app. cbn [length fst snd].
  rewrite map_size_insert_None; [rewrite IH by done; lia|].
  apply eq_None_not_Some. intros [v' Hv'].
  apply dict_of_lookup in Hv'; [|done].
  apply (Hfresh k); [|left].
  apply list_elem_of_fmap. by exists (k, v').
Qed.

(** X7. [get_num_labels] counts the entries of both label mappings, and it
    is zero exactly for a frame without rows. *)
Theorem get_num_labels_size {I} (df : Frame I) :
  size (create_label2index df) = get_num_labels df ∧
  size (create_index2label df) = get_num_labels df ∧
  (get_num_labels df = 0%nat ↔ df = []).
Proof.
  unfold get_num_labels. rewrite length_value_counts. split_and!.
  - unfold create_label2index. rewrite dict_of_size.
    + unfold enumerate. by rewrite length_fmap, length_imap.
    + rewrite <- list_fmap_compose.
      replace (fst ∘ (λ iv : nat * Z, (iv.2, iv.1)) <$> enumerate (unique (col_index df)))
        with (unique (col_index df)); [apply NoDup_unique|].
      rewrite <- (enumerate_snd (unique (col_index df))) at 1.
      by apply list_fmap_ext.
  - unfold create_index2label. rewrite dict_of_size.
    + unfold enumerate. by rewrite length_imap.
    + rewrite enumerate_fst. apply NoDup_seq.
  - split.
    + destruct df as [|p df]; [done|]. done.
    + by intros ->.
Qed.

(** * Further properties of sampling and splitting *)

Lemma sample_size_1 (n : nat) : sample_size 1 n = n.
Proof.
  unfold sample_size, round.
  set (q := (1 * inject_Z (Z.of_nat n))%Q).
  assert (Qnum q = Z.of_nat n) as -> by (unfold q; cbn; lia).
  assert (Z.pos (Qden q) = 1) as -> by done.
  rewrite Z.mod_1_r, Z.div_1_r. rewrite decide_True by lia. lia.
Qed.

Lemma sample_size_frac_0 (n : nat) : sample_size 0 n = 0%nat.
Proof.
  unfold sample_size, round.
  set (q := (0 * inject_Z (Z.of_nat n))%Q).
  assert (Qnum q = 0) as -> by done.
  assert (Z.pos (Qden q) = 1) as -> by done.
  done.
Qed.

Lemma count_label_Permutation {I} (v : Z) (l k : Frame I) :
  l ≡ₚ k → count_label v l = count_label v k.
Proof. intros Hperm. unfold count_label. by rewrite Hperm. Qed.

Lemma count_label_zero_nil {I} (l : Frame I) :
  (∀ v, count_label v l = 0%nat) → l = [].
Proof.
  destruct l as [|p l]; [done|]. intros Hz.
  pose proof (count_label_pos (p :: l) p ltac:(left)) as Hpos.
  rewrite Hz in Hpos. lia.
Qed.

Lemma submseteq_count_Permutation {I} (l d : Frame I) :
  l ⊆+ d → (∀ v, count_label v l = count_label v d) → l ≡ₚ d.
Proof.
  intros [k Hk]%submseteq_Permutation Hcount.
  assert (k = []) as ->; [|by rewrite Hk, app_nil_r].
  apply count_label_zero_nil. intros v. specialize (Hcount v).
  rewrite (count_label_Permutation v d (l ++ k) Hk), count_label_app in Hcount.
  lia.
Qed.

Lemma count_row_filter_le {I} (P : I * Row → Prop) `{∀ p, Decision (P p)}
    (r : Row) (l : Frame I) :
  (count_row r (filter P l) ≤ count_row r l)%nat.
Proof.
  unfold count_row. induction l as [|p l IH]; [done|].
  rewrite !filter_cons.
  destruct (decide (P p)), (decide (p.2 = r));
    rewrite ?filter_cons, ?decide_True, ?decide_False by done;
    cbn [length]; lia.
Qed.

Lemma count_one_NoDup {I} (l : Frame I) :
  (∀ p, p ∈ l → count_row p.2 l = 1%nat) → NoDup (l.*2).
Proof.
  induction l as [|p l IH]; intros Hone; [constructor|].
  rewrite fmap_cons. constructor.
  - intros Hin%count_row_pos.
    specialize (Hone p ltac:(left)).
    change (p :: l) with ([p] ++ l) in Hone. rewrite count_row_app in Hone.
    unfold count_row at 1 in Hone.
    rewrite filter_cons, decide_True in Hone by done. simpl in Hone. lia.
  - apply IH. intros q Hq.
    assert (0 < count_row q.2 l)%nat
      by (apply count_row_pos, list_elem_of_fmap; eauto).
    specialize (Hone q ltac:(by right)).
    change (p :: l) with ([p] ++ l) in Hone. rewrite count_row_app in Hone.
    lia.
Qed.

(** Concatenating a selection [a] of the rows of any frame [b] and dropping
    everything that then occurs twice leaves the rows of [b] whose values
    occur once in [b] and not in [a]. *)
Lemma keep_false_general {I} (a b : Frame I) :
  a ⊆+ b →
  drop_duplicates_keep_false (a ++ b)
  = filter (λ p, count_row p.2 b = 1%nat ∧ p.2 ∉ a.*2) b.
Proof.
  intros Hsub. unfold drop_duplicates_keep_false.
  rewrite filter_app, filter_none.
  - apply filter_ext_in. intros p Hp. rewrite count_row_app.
    assert (0 < count_row p.2 b)%nat
      by (apply count_row_pos, list_elem_of_fmap; eauto).
    split.
    + intros Hcount. split; [lia|]. intros Hin%count_row_pos. lia.
    + intros [Hone Hnin]. rewrite (count_row_zero _ a) by done. lia.
  - intros p Hp. rewrite count_row_app.
    assert (0 < count_row p.2 a)%nat
      by (apply count_row_pos, list_elem_of_fmap; eauto).
    assert (0 < count_row p.2 b)%nat.
    { apply count_row_pos, list_elem_of_fmap. exists p. split; [done|].
      by eapply elem_of_submseteq. }
    lia.
Qed.

Lemma keep_false_general_NoDup {I} (a b : Frame I) :
  NoDup ((filter (λ p, count_row p.2 b = 1%nat ∧ p.2 ∉ a.*2) b).*2).
Proof.
  apply count_one_NoDup. intros p Hp.
  pose proof (count_row_filter_le
                (λ p, count_row p.2 b = 1%nat ∧ p.2 ∉ a.*2) p.2 b) as Hle.
  assert (0 < count_row p.2
                (filter (λ p, count_row p.2 b = 1%nat ∧ p.2 ∉ a.*2) b))%nat
    by (apply count_row_pos, list_elem_of_fmap; eauto).
  apply list_elem_of_filter in Hp as [[Hone _] _]. lia.
Qed.

Section SplitMore.

Variable RandomState : Z → rng.

(** X8. When [bootstrap] raises and when it returns: a frame without rows
    gives [IndexError] whatever the fraction, a frame with rows and a
    fraction above one or below zero gives [ValueError], in both cases with
    nothing printed and the generator untouched; and whenever it returns,
    the frame had rows, the fraction was between zero and one, and nothing
    was printed. *)
Theorem bootstrap_outcome (data : DataFrame) (fraction : Q) (w : World) :
  (data = [] →
   bootstrap RandomState data fraction w = (Raise IndexError, w)) ∧
  (data ≠ [] → (1 < fraction)%Q ∨ (fraction < 0)%Q →
   bootstrap RandomState data fraction w = (Raise ValueError, w)) ∧
  (∀ samples w',
     bootstrap RandomState data fraction w = (Ok samples, w') →
     data ≠ [] ∧ (0 <= fraction)%Q ∧ (fraction <= 1)%Q ∧
     events w' = events w).
Proof.
  split_and!.
  - intros ->. apply bootstrap_empty.
  - apply bootstrap_refuses.
  - intros samples w' Hrun.
    destruct data as [|p data].
    { by rewrite bootstrap_empty in Hrun. }
    destruct (Qlt_le_dec 1 fraction) as [Hgt|H1].
    { rewrite bootstrap_refuses in Hrun by (done || by left). done. }
    destruct (Qlt_le_dec fraction 0) as [Hlt|H0].
    { rewrite bootstrap_refuses in Hrun by (done || by right). done. }
    destruct (bootstrap_spec RandomState (p :: data) fraction w)
      as (s & w1 & Hrun' & _ & _ & _ & Hev); [done..|].
    rewrite Hrun' in Hrun. injection Hrun as <- <-. done.
Qed.

(** X9. The two ends of the range: with fraction one [bootstrap] returns
    every row of the frame (in some order), with fraction zero none. *)
Theorem bootstrap_extremes (data : DataFrame) (w : World) :
  data ≠ [] →
  (∃ samples w',
     bootstrap RandomState data 1 w = (Ok samples, w') ∧ samples ≡ₚ data) ∧
  (∃ w', bootstrap RandomState data 0 w = (Ok [], w')).
Proof.
  intros Hne. split.
  - destruct (bootstrap_spec RandomState data 1 w Hne)
      as (s & w' & Hrun & Hsub & _ & Hcount & _); [done..|].
    exists s, w'. split; [done|].
    apply submseteq_count_Permutation; [done|].
    intros v. by rewrite Hcount, sample_size_1.
  - destruct (bootstrap_spec RandomState data 0 w Hne)
      as (s & w' & Hrun & Hsub & _ & Hcount & _); [done..|].
    assert (s = []) as ->; [|by exists w'].
    apply count_label_zero_nil. intros v.
    by rewrite Hcount, sample_size_frac_0.
Qed.

Lemma output_split_general (df : DataFrame) (fraction : Q) (w : World) :
  df ≠ [] → (0 <= fraction)%Q → (fraction <= 1)%Q →
  ∃ df_train df_val df_test w',
    output_split RandomState df fraction w
    = (Ok (df_train, df_val, df_test), w') ∧
    df_train ⊆+ df ∧
    df_val ++ df_test
    ≡ₚ filter (λ p, count_row p.2 df = 1%nat ∧ p.2 ∉ df_train.*2) df ∧
    events w'
    = events w ++ [EPrintCount "訓練樣本數：" (length df_train);
                   EPrintCount "validation樣本數：" (length df_val);
                   EPrintCount "預測樣本數：" (length df_test)].
Proof.
  intros Hne H0 H1.
  destruct (output_split_spec RandomState df fraction w Hne H0 H1)
    as (train & val & w' & Hrun & Hsub & _ & Hsubv & _ & Hev).
  cbn zeta in *.
  rewrite (keep_false_general train df Hsub) in *.
  set (remain := filter _ df) in *.
  assert (Hndr : NoDup (remain.*2)) by apply keep_false_general_NoDup.
  rewrite (keep_false_difference val remain Hsubv Hndr) in *.
  eexists train, val, _, w'. split; [exact Hrun|].
  split_and!; [done | | done].
  by apply difference_Permutation.
Qed.

(** X10. On any frame, deduplicated or not: the validation and test frames
    together are exactly the rows of [df] whose label and question occur
    once in [df] and that were not drawn for training. A row whose label
    and question occur twice in [df] therefore ends up in neither of them,
    whether or not it was drawn for training. *)
Theorem output_split_drops_repeated (df : DataFrame) (fraction : Q)
    (w : World) :
  df ≠ [] → (0 <= fraction)%Q → (fraction <= 1)%Q →
  ∃ df_train df_val df_test w',
    output_split RandomState df fraction w
    = (Ok (df_train, df_val, df_test), w') ∧
    df_train ⊆+ df ∧
    df_val ++ df_test
    ≡ₚ filter (λ p, count_row p.2 df = 1%nat ∧ p.2 ∉ df_train.*2) df ∧
    ∀ p, (1 < count_row p.2 df)%nat → (p ∉ df_val) ∧ (p ∉ df_test).
Proof.
  intros Hne H0 H1.
  destruct (output_split_general df fraction w Hne H0 H1)
    as (train & val & test & w' & Hrun & Hsub & Hperm & _).
  exists train, val, test, w'. split_and!; [done..|].
  intros p Hrep.
  assert (p ∉ val ++ test) as Hnin.
  { rewrite Hperm. intros [[Hone _] _]%list_elem_of_filter. lia. }
  rewrite elem_of_app in Hnin. tauto.
Qed.

(** X11. [output_split] prints three lines and nothing else: the sizes of
    the training, validation and test frames, in this order; on a frame
    without repeated rows the three sizes add up to the size of [df]. *)
Theorem output_split_prints (df : DataFrame) (fraction : Q) (w : World) :
  df ≠ [] → (0 <= fraction)%Q → (fraction <= 1)%Q →
  ∃ df_train df_val df_test w',
    output_split RandomState df fraction w
    = (Ok (df_train, df_val, df_test), w') ∧
    events w'
    = events w ++ [EPrintCount "訓練樣本數：" (length df_train);
                   EPrintCount "validation樣本數：" (length df_val);
                   EPrintCount "預測樣本數：" (length df_test)] ∧
    (NoDup (df.*2) →
     (length df_train + length df_val + length df_test = length df)%nat).
Proof.
  intros Hne H0 H1.
  destruct (output_split_general df fraction w Hne H0 H1)
    as (train & val & test & w' & Hrun & Hsub & Hperm & Hev).
  exists train, val, test, w'. split_and!; [done..|].
  intros Hnd.
  assert (filter (λ p, count_row p.2 df = 1%nat ∧ p.2 ∉ train.*2) df
          = filter (λ p, p.2 ∉ train.*2) df) as Heq.
  { apply filter_ext_in. intros p Hp.
    rewrite (count_row_NoDup p df Hnd Hp). tauto. }
  rewrite Heq in Hperm.
  pose proof (difference_Permutation train df Hsub Hnd) as Hall.
  rewrite <- Hperm in Hall. apply Permutation_length in Hall.
  rewrite !length_app in Hall. lia.
Qed.

End SplitMore.

(** * Further properties of the dataset adapter and of collation *)











(** * Further properties of the driver and its helpers *)






Section DriverMore.

Variable RandomState : Z → rng.
Variable read_csv : string → string → result DataFrame.
Variable from_pretrained : string → result Tokenizer.
Variable path_exists : string → bool.



(** X17. [main] returns normally exactly on its early return, test mode
    with no model or an empty model path, and then all it has done is print
    the message; every other run ends with an exception. *)
Theorem main_returns_iff_early_return (args : Namespace) (w : World) :
  (early_return args →
   main RandomState read_csv from_pretrained path_exists args w
   = (Ok tt,
      mkWorld
        (events w
         ++ [EPrint "In test mode, you should provide the model to evaluate."])
        (numpy_random w))) ∧
  (∀ w',
     main RandomState read_csv from_pretrained path_exists args w
     = (Ok tt, w') → early_return args).
Proof.
  split.
  - intros [Hdt Hms]. unfold main. rewrite Hdt, Hms. by rewrite decide_True.
  - intros w' Hrun. unfold early_return.
    destruct (do_test args) eqn:Hdt.
    + destruct (truthy (of_optional_str (model_start args))) eqn:Hms; [|done].
      by rewrite main_test_path in Hrun.
    + destruct (main_train_path RandomState read_csv from_pretrained
                  path_exists args w Hdt) as (new & _ & _ & Hres).
      by rewrite Hrun in Hres.
Qed.




End DriverMore.

(** * The further properties at concrete inputs *)

Lemma bootstrap_extremes_witness :
  example_df ≠ [] ∧
  ∃ samples w',
    bootstrap example_RandomState example_df 1 example_world
    = (Ok samples, w') ∧ samples ≡ₚ example_df.
Proof.
  assert (Hne : example_df ≠ []) by done.
  split; [done|].
  exact (proj1 (bootstrap_extremes example_RandomState example_df
                  example_world Hne)).
Defined.

Lemma output_split_drops_repeated_witness :
  example_df_repeated ≠ [] ∧ (0 <= 7 # 10)%Q ∧ (7 # 10 <= 1)%Q ∧
  ∃ df_train df_val df_test w',
    output_split example_RandomState example_df_repeated (7 # 10)
      example_world
    = (Ok (df_train, df_val, df_test), w') ∧
    ((0%nat, mkRow 5 "a") ∉ df_val) ∧ ((0%nat, mkRow 5 "a") ∉ df_test).
Proof.
  assert (Hne : example_df_repeated ≠ []) by done.
  destruct Q_7_10_bounds as [H0 H1].
  split_and!; [done..|].
  destruct (output_split_drops_repeated example_RandomState
              example_df_repeated (7 # 10) example_world Hne H0 H1)
    as (train & val & test & w' & Hrun & _ & _ & Hrep).
  exists train, val, test, w'. split; [done|].
  apply Hrep. vm_compute. lia.
Defined.

Lemma output_split_prints_witness :
  example_df ≠ [] ∧ (0 <= 7 # 10)%Q ∧ (7 # 10 <= 1)%Q ∧
  ∃ df_train df_val df_test w',
    output_split example_RandomState example_df (7 # 10) example_world
    = (Ok (df_train, df_val, df_test), w') ∧
    events w'
    = [EPrintCount "訓練樣本數：" (length df_train);
       EPrintCount "validation樣本數：" (length df_val);
       EPrintCount "預測樣本數：" (length df_test)].
Proof.
  assert (Hne : example_df ≠ []) by done.
  destruct Q_7_10_bounds as [H0 H1].
  split_and!; [done..|].
  destruct (output_split_prints example_RandomState example_df (7 # 10)
              example_world Hne H0 H1)
    as (train & val & test & w' & Hrun & Hev & _).
  by exists train, val, test, w'.
Defined.





